(** * Data-Storyteller: the analysis engine and the upload size check

    A shallow embedding of [src/data_analyzer.py] (class [DataAnalyzer]),
    [src/utils.py] and [config/settings.py].

    Numbers.  A float64 cell is modelled by an exact rational ([Q]); the
    missing marker (NaN in a float column, [None] in an object column) is
    [None].  Quantities that pandas and scipy obtain through a square root
    (standard deviation, z-score, Pearson coefficient, skewness) are kept
    in the closed form [c * sqrt r] (type [surd]), so that comparisons with
    a threshold are decided exactly on the squares.  Infinite cell values
    and rounding are outside the model. *)

From Stdlib Require Import QArith Qabs Qround ZArith Lia Lqa Sorted.
From stdpp Require Import base option list gmap strings pretty.

Local Open Scope Z_scope.

(** ** Python exceptions as a result monad *)

Inductive exn : Type :=
  | IndexError
  | KeyError
  | TypeError.

Inductive result (A : Type) : Type :=
  | Ok (a : A)
  | Raise (e : exn).
Arguments Ok {A} a.
Arguments Raise {A} e.

#[global] Instance result_ret : MRet result := fun _ a => Ok a.
#[global] Instance result_bind : MBind result := fun _ _ f m =>
  match m with
  | Ok a => f a
  | Raise e => Raise e
  end.

#[global] Instance result_fmap : FMap result := fun _ _ f m =>
  match m with
  | Ok a => Ok (f a)
  | Raise e => Raise e
  end.

Definition is_ok {A} (r : result A) : Prop := exists a, r = Ok a.

(** ** config/settings.py *)

Module Config.
Record t : Type := mk {
  OLLAMA_BASE_URL : string;
  GEMMA_MODEL : string;
  MAX_FILE_SIZE : Z;               (* MB *)
  SUPPORTED_FORMATS : list string
}.

(** The values taken when the environment overrides nothing. *)
Definition default : t :=
  {| OLLAMA_BASE_URL := "http://localhost:11434";
     GEMMA_MODEL := "gemma3:1b";
     MAX_FILE_SIZE := 200;
     SUPPORTED_FORMATS := [".csv"] |}.
End Config.

(** ** src/utils.py *)

(** Nearest integer, ties to even: the rounding of [format(x, ".1f")]. *)
Definition round_half_even (x : Q) : Z :=
  let n := Qnum x in
  let d := Zpos (Qden x) in
  let fl := n / d in
  let r := n mod d in
  match 2 * r ?= d with
  | Lt => fl
  | Gt => fl + 1
  | Eq => if Z.even fl then fl else fl + 1
  end.

(** [f"{x:.1f}"]: sign, integer part, point, one decimal digit. *)
Definition format_1f (x : Q) : string :=
  let t := round_half_even (Qabs x * 10) in
  ((if Qle_bool 0 x then "" else "-") +:+
   pretty (t / 10) +:+ "." +:+ pretty (t mod 10))%string.

Definition MiB : Z := 1024 ^ 2.

Definition check_file_size_bytes (cfg : Config.t) (file_size_bytes : Z)
  : bool * string :=
  let max_mb := Config.MAX_FILE_SIZE cfg in
  let size_mb := (inject_Z file_size_bytes / inject_Z MiB)%Q in
  if negb (Qle_bool size_mb (inject_Z max_mb)) then
    (false, ("File size " +:+ format_1f size_mb +:+
             " MB exceeds the maximum allowed " +:+ pretty max_mb +:+
             " MB.")%string)
  else
    (true, ("File size " +:+ format_1f size_mb +:+
            " MB within allowed limit.")%string).

Example check_small :
  check_file_size_bytes Config.default 262144
  = (true, "File size 0.2 MB within allowed limit."%string).
Proof. vm_compute. reflexivity. Qed.

Example check_big :
  check_file_size_bytes Config.default 314572800
  = (false, "File size 300.0 MB exceeds the maximum allowed 200 MB."%string).
Proof. vm_compute. reflexivity. Qed.

(** ** Floating-point results

    [NaN] is the float not-a-number; [Val a] a defined value. *)

Inductive flt (A : Type) : Type :=
  | NaN
  | Val (a : A).
Arguments NaN {A}.
Arguments Val {A} a.

Definition flt_map {A B} (f : A -> B) (x : flt A) : flt B :=
  match x with
  | NaN => NaN
  | Val a => Val (f a)
  end.

(** [Surd c r] stands for the real number [c * sqrt r], with [0 <= r]. *)
Record surd : Type := Surd { coef : Q; radicand : Q }.

Definition Qltb (x y : Q) : bool := negb (Qle_bool y x).

Definition surd_sqrt (v : Q) : surd := Surd 1 v.

(** [q / sqrt v], for [0 < v], is [(q / v) * sqrt v]. *)
Definition surd_div (q v : Q) : surd := Surd (q / v) v.

Definition surd_abs (s : surd) : surd := Surd (Qabs (coef s)) (radicand s).

(** [s > t] for a threshold [0 <= t]: [c > 0] and [c^2 * r > t^2]. *)
Definition surd_gtb (s : surd) (t : Q) : bool :=
  Qltb 0 (coef s) && Qltb (t * t) (coef s * coef s * radicand s).

(** ** The numeric kernel: pandas, numpy and scipy reductions

    All of them take the values that are left after [dropna()]. *)

Definition Qsum (xs : list Q) : Q := foldr Qplus 0%Q xs.

Definition Qlen (xs : list Q) : Q := inject_Z (Z.of_nat (length xs)).

(** Arithmetic mean of a non-empty sample. *)
Definition avg (xs : list Q) : Q := (Qsum xs / Qlen xs)%Q.

(** [Series.mean()] *)
Definition series_mean (xs : list Q) : flt Q :=
  match xs with
  | [] => NaN
  | _ => Val (avg xs)
  end.

(** k-th central moment sum: the sum of [(x - mean)^k]. *)
Definition dev_sum (k : positive) (xs : list Q) : Q :=
  Qsum (map (fun x => Qpower_positive (x - avg xs) k) xs).

(** Variance with [ddof] delta degrees of freedom; NaN when the sample
    has no more than [ddof] values. *)
Definition variance (ddof : nat) (xs : list Q) : flt Q :=
  if (length xs <=? ddof)%nat then NaN
  else Val (dev_sum 2 xs / inject_Z (Z.of_nat (length xs - ddof)))%Q.

(** [Series.std()]: the sample standard deviation ([ddof = 1]). *)
Definition series_std (xs : list Q) : flt surd :=
  flt_map surd_sqrt (variance 1 xs).

(** Insertion sort, the order of [Series.sort_values()]. *)
Fixpoint insert_sorted (x : Q) (l : list Q) : list Q :=
  match l with
  | [] => [x]
  | y :: l' => if Qle_bool x y then x :: l else y :: insert_sorted x l'
  end.

Definition sort_values (xs : list Q) : list Q := foldr insert_sorted [] xs.

(** Linear interpolation in a sorted sample [s]: the value at the
    fractional position [q * (n - 1)], between the two closest ranks. *)
Definition interpolate (s : list Q) (q : Q) : Q :=
  let pos := (q * inject_Z (Z.of_nat (length s - 1)))%Q in
  let lo := Z.to_nat (Qfloor pos) in
  let frac := (pos - inject_Z (Qfloor pos))%Q in
  let a := nth lo s 0%Q in
  let b := nth (Nat.min (S lo) (length s - 1)) s 0%Q in
  (a + (b - a) * frac)%Q.

(** [Series.quantile(q)] with the default linear interpolation. *)
Definition series_quantile (q : Q) (xs : list Q) : flt Q :=
  match xs with
  | [] => NaN
  | _ => Val (interpolate (sort_values xs) q)
  end.

(** [Series.median()] *)
Definition series_median (xs : list Q) : flt Q :=
  match xs with
  | [] => NaN
  | _ =>
    let s := sort_values xs in
    let n := length xs in
    if Nat.odd n then Val (nth (n / 2) s 0%Q)
    else Val ((nth (n / 2 - 1) s 0 + nth (n / 2) s 0) / 2)%Q
  end.

(** [Series.min()] and [Series.max()] *)
Definition series_min (xs : list Q) : flt Q :=
  match xs with
  | [] => NaN
  | x :: xs' => Val (foldl (fun a b => if Qle_bool a b then a else b) x xs')
  end.

Definition series_max (xs : list Q) : flt Q :=
  match xs with
  | [] => NaN
  | x :: xs' => Val (foldl (fun a b => if Qle_bool a b then b else a) x xs')
  end.

(** [scipy.stats.skew]: the biased estimator [m3 / m2^(3/2)], NaN when
    the second moment vanishes. *)
Definition stats_skew (xs : list Q) : flt surd :=
  match xs with
  | [] => NaN
  | _ =>
    let m2 := (dev_sum 2 xs / Qlen xs)%Q in
    let m3 := (dev_sum 3 xs / Qlen xs)%Q in
    if Qeq_bool m2 0 then NaN else Val (Surd (m3 / (m2 * m2)) m2)
  end.

(** [scipy.stats.kurtosis]: Fisher's definition [m4 / m2^2 - 3]. *)
Definition stats_kurtosis (xs : list Q) : flt Q :=
  match xs with
  | [] => NaN
  | _ =>
    let m2 := (dev_sum 2 xs / Qlen xs)%Q in
    let m4 := (dev_sum 4 xs / Qlen xs)%Q in
    if Qeq_bool m2 0 then NaN else Val (m4 / (m2 * m2) - 3)%Q
  end.

(** [scipy.stats.zscore(a, ddof=0)]: [(a - a.mean()) / a.std(ddof=ddof)],
    NaN throughout when the deviation vanishes.  With the default
    [ddof = 0] the deviation is the population one (denominator [n]). *)
Definition stats_zscore (ddof : nat) (xs : list Q) : list (flt surd) :=
  match variance ddof xs with
  | NaN => map (fun _ => NaN) xs
  | Val v =>
    if Qeq_bool v 0 then map (fun _ => NaN) xs
    else map (fun x => Val (surd_div (x - avg xs) v)) xs
  end.

(** [np.abs] on an array of floats. *)
Definition np_abs (zs : list (flt surd)) : list (flt surd) :=
  map (flt_map surd_abs) zs.

(** [zs > t], element-wise: a comparison with NaN is false. *)
Definition gt_mask (zs : list (flt surd)) (t : Q) : list bool :=
  map (fun z => match z with Val s => surd_gtb s t | NaN => false end) zs.

(** [mask.sum()]: the number of [True] entries of a boolean array. *)
Definition mask_sum (mask : list bool) : nat :=
  length (List.filter (fun b : bool => b) mask).

(** ** pandas DataFrames

    A series carries its dtype.  Only float64, object and category series
    can hold the missing marker. *)

Inductive series : Type :=
  | Float64 (xs : list (option Q))
  | Int64 (xs : list Z)
  | Bool (xs : list bool)
  | Object (xs : list (option string))
  | Category (xs : list (option string)).

(** One cell of a row, as a Python object. *)
Inductive cell : Type :=
  | NA
  | CFloat (q : Q)
  | CInt (z : Z)
  | CBool (b : bool)
  | CStr (s : string).

Definition cells (s : series) : list cell :=
  match s with
  | Float64 xs => map (fun x => match x with Some q => CFloat q | None => NA end) xs
  | Int64 xs => map CInt xs
  | Bool xs => map CBool xs
  | Object xs => map (fun x => match x with Some v => CStr v | None => NA end) xs
  | Category xs => map (fun x => match x with Some v => CStr v | None => NA end) xs
  end.

Definition dtype_name (s : series) : string :=
  match s with
  | Float64 _ => "float64"
  | Int64 _ => "int64"
  | Bool _ => "bool"
  | Object _ => "object"
  | Category _ => "category"
  end.

(** Membership in [np.number]; bool is not a number dtype. *)
Definition is_number (s : series) : bool :=
  match s with
  | Float64 _ | Int64 _ => true
  | _ => false
  end.

Definition is_object_or_category (s : series) : bool :=
  match s with
  | Object _ | Category _ => true
  | _ => false
  end.

Definition is_na (c : cell) : bool :=
  match c with
  | NA => true
  | _ => false
  end.

(** Equality of cells as [duplicated()] sees it: two missing cells are
    equal. *)
Definition cell_eqb (a b : cell) : bool :=
  match a, b with
  | NA, NA => true
  | CFloat p, CFloat q => Qeq_bool p q
  | CInt x, CInt y => Z.eqb x y
  | CBool x, CBool y => Bool.eqb x y
  | CStr x, CStr y => String.eqb x y
  | _, _ => false
  end.

Record column : Type := Column { label : string; data : series }.

(** [nrows] is the length of the index. *)
Record DataFrame : Type := mkDataFrame {
  nrows : nat;
  columns : list column
}.

Definition labels (df : DataFrame) : list string := map label (columns df).

(** The invariant of a table: unique column names, one cell per row in
    every column. *)
Definition wf (df : DataFrame) : Prop :=
  NoDup (labels df) /\
  Forall (fun c => length (cells (data c)) = nrows df) (columns df).

(** [df.copy()]: a deep copy, equal to the original. *)
Definition df_copy (df : DataFrame) : DataFrame :=
  {| nrows := nrows df; columns := map (fun c => Column (label c) (data c)) (columns df) |}.

(** [df.select_dtypes(include=...)] *)
Definition select_dtypes (include : series -> bool) (df : DataFrame) : DataFrame :=
  {| nrows := nrows df;
     columns := List.filter (fun c => include (data c)) (columns df) |}.

(** [df[col]] *)
Definition getitem (df : DataFrame) (col : string) : result series :=
  match List.find (fun c => String.eqb (label c) col) (columns df) with
  | Some c => Ok (data c)
  | None => Raise KeyError
  end.

(** The float view on which the numeric reductions work.  A reduction of
    a non-numeric series is a TypeError. *)
Definition to_numeric (s : series) : result (list (option Q)) :=
  match s with
  | Float64 xs => Ok xs
  | Int64 xs => Ok (map (fun z => Some (inject_Z z)) xs)
  | _ => Raise TypeError
  end.

(** The object view of a text column. *)
Definition to_object (s : series) : result (list (option string)) :=
  match s with
  | Object xs => Ok xs
  | Category xs => Ok xs
  | _ => Raise TypeError
  end.

(** [Series.dropna()] *)
Definition dropna {A} (xs : list (option A)) : list A := omap id xs.

(** [Series.diff()]: the first entry has no predecessor and is missing. *)
Fixpoint diff_from (prev : Q) (xs : list Q) : list (option Q) :=
  match xs with
  | [] => []
  | x :: xs' => Some (x - prev)%Q :: diff_from x xs'
  end.

Definition series_diff (xs : list Q) : list (option Q) :=
  match xs with
  | [] => []
  | x :: xs' => None :: diff_from x xs'
  end.

(** [df.isnull().sum()], one count per column. *)
Definition isnull_sum (df : DataFrame) : list (string * Z) :=
  map (fun c => (label c, Z.of_nat (mask_sum (map is_na (cells (data c))))))
      (columns df).

(** [Series.to_dict()]: a later entry with the same key wins. *)
Definition to_dict {V} (kvs : list (string * V)) : gmap string V :=
  foldl (fun m kv => <[kv.1 := kv.2]> m) ∅ kvs.

(** *** Duplicated rows *)

Definition row (df : DataFrame) (i : nat) : list cell :=
  map (fun c => nth i (cells (data c)) NA) (columns df).

Definition rows (df : DataFrame) : list (list cell) :=
  map (row df) (seq 0 (nrows df)).

Fixpoint row_eqb (r1 r2 : list cell) : bool :=
  match r1, r2 with
  | [], [] => true
  | a :: r1', b :: r2' => cell_eqb a b && row_eqb r1' r2'
  | _, _ => false
  end.

(** One pass over the rows with the set of rows seen so far; a row is
    flagged when it is already in the set ([keep='first']). *)
Fixpoint duplicated_from (seen : list (list cell)) (rs : list (list cell))
  : list bool :=
  match rs with
  | [] => []
  | r :: rs' =>
    if existsb (row_eqb r) seen then true :: duplicated_from seen rs'
    else false :: duplicated_from (r :: seen) rs'
  end.

(** [df.empty]: some axis has length 0. *)
Definition df_empty (df : DataFrame) : bool :=
  (nrows df =? 0)%nat || (length (columns df) =? 0)%nat.

(** [df.duplicated()]; on an empty frame pandas returns an empty series. *)
Definition duplicated (df : DataFrame) : list bool :=
  if df_empty df then [] else duplicated_from [] (rows df).

(** *** Pearson correlation, [DataFrame.corr()] *)

(** The rows where neither value is missing. *)
Fixpoint pairwise_complete (xs ys : list (option Q)) : list (Q * Q) :=
  match xs, ys with
  | Some x :: xs', Some y :: ys' => (x, y) :: pairwise_complete xs' ys'
  | _ :: xs', _ :: ys' => pairwise_complete xs' ys'
  | _, _ => []
  end.

(** The sum of [(x - mean x) * (y - mean y)]. *)
Definition codev_sum (ps : list (Q * Q)) : Q :=
  Qsum (map (fun p => (p.1 - avg ps.*1) * (p.2 - avg ps.*2))%Q ps).

(** The coefficient [cov / sqrt (ssx * ssy)] over the complete pairs; NaN
    when there is no pair or when a variance vanishes. *)
Definition pearson (xs ys : list (option Q)) : flt surd :=
  let ps := pairwise_complete xs ys in
  if (length ps <? 1)%nat then NaN
  else
    let d := (dev_sum 2 ps.*1 * dev_sum 2 ps.*2)%Q in
    if Qeq_bool d 0 then NaN else Val (surd_div (codev_sum ps) d).

Record Matrix : Type := mkMatrix {
  m_columns : list string;
  m_values : list (list (flt surd))
}.

Definition df_corr (df : DataFrame) : result Matrix :=
  arrs ← mapM (fun c => to_numeric (data c)) (columns df);
  Ok {| m_columns := labels df;
        m_values := map (fun a => map (fun b => pearson a b) arrs) arrs |}.

(** [m.iloc[i, j]] and [m.columns[i]]: out of range is an IndexError. *)
Definition iloc (m : Matrix) (i j : nat) : result (flt surd) :=
  match m_values m !! i with
  | Some r =>
    match r !! j with
    | Some v => Ok v
    | None => Raise IndexError
    end
  | None => Raise IndexError
  end.

Definition columns_at (m : Matrix) (i : nat) : result string :=
  match m_columns m !! i with
  | Some c => Ok c
  | None => Raise IndexError
  end.

(** *** Counting values of a text column *)

(** The hash table of [value_counts()]: keys in first-seen order. *)
Fixpoint count_add (v : string) (cs : list (string * nat)) : list (string * nat) :=
  match cs with
  | [] => [(v, 1%nat)]
  | kn :: cs' =>
    if String.eqb kn.1 v then (kn.1, S kn.2) :: cs' else kn :: count_add v cs'
  end.

Definition tally (vs : list string) : list (string * nat) :=
  foldl (fun cs v => count_add v cs) [] vs.

(** Descending by count; equal counts keep their first-seen order. *)
Fixpoint insert_by_count (e : string * nat) (l : list (string * nat))
  : list (string * nat) :=
  match l with
  | [] => [e]
  | f :: l' => if (f.2 <=? e.2)%nat then e :: l else f :: insert_by_count e l'
  end.

(** [Series.value_counts(dropna=True)] *)
Definition value_counts (xs : list (option string)) : list (string * nat) :=
  foldr insert_by_count [] (tally (dropna xs)).

(** [Series.nunique(dropna=True)] *)
Definition nunique (xs : list (option string)) : nat :=
  length (tally (dropna xs)).

Fixpoint insert_str (x : string) (l : list string) : list string :=
  match l with
  | [] => [x]
  | y :: l' => if String.leb x y then x :: l else y :: insert_str x l'
  end.

(** [Series.mode()]: the most frequent non-missing values, sorted. *)
Definition series_mode (xs : list (option string)) : list string :=
  let cs := tally (dropna xs) in
  let top := foldr Nat.max 0%nat cs.*2 in
  foldr insert_str [] (List.filter (fun kn => (kn.2 =? top)%nat) cs).*1.

(** [s.empty] *)
Definition empty {A} (s : list A) : bool :=
  match s with
  | [] => true
  | _ => false
  end.

(** [s.iloc[0]] *)
Definition iloc0 {A} (s : list A) : result A :=
  match s with
  | x :: _ => Ok x
  | [] => Raise IndexError
  end.

(** ** src/data_analyzer.py *)

Module NumericSummary.
Record t : Type := mk {
  mean : option (flt Q);
  median : option (flt Q);
  std : option (flt surd);
  min : option (flt Q);
  max : option (flt Q);
  skewness : option (flt surd);
  kurtosis : option (flt Q);
  outliers_count : Z
}.
End NumericSummary.

Module CategoricalSummary.
Record t : Type := mk {
  unique_count : Z;
  most_frequent : option string;
  value_counts : list (string * Z)
}.
End CategoricalSummary.

Module StatsSummary.
Record t : Type := mk {
  numerical : gmap string NumericSummary.t;
  categorical : gmap string CategoricalSummary.t
}.
End StatsSummary.

Module BasicInfo.
Record t : Type := mk {
  shape : nat * nat;
  columns : list string;
  dtypes : gmap string string;
  memory_usage : Z;
  missing_values : gmap string Z;
  duplicate_rows : Z
}.
End BasicInfo.

Module Correlation.
Record t : Type := mk { var1 : string; var2 : string; correlation : surd }.
End Correlation.

Module Trend.
Record t : Type := mk { column : string; trend : string }.
End Trend.

Module Anomaly.
Record t : Type := mk { column : string; anomalies_count : Z }.
End Anomaly.

Module Patterns.
Record t : Type := mk {
  correlations : list Correlation.t;
  trends : list Trend.t;
  anomalies : list Anomaly.t
}.
End Patterns.

(** A [for] loop whose body may raise, threading the loop state. *)
Fixpoint for_each {A S : Type} (l : list A) (body : A -> S -> result S) (s : S)
  : result S :=
  match l with
  | [] => Ok s
  | x :: l' => s' ← body x s; for_each l' body s'
  end.

(** [range(a, b)] *)
Definition range (a b : nat) : list nat := seq a (b - a).

(** [DataAnalyzer._detect_outliers] *)
Definition _detect_outliers (series : list Q) : Z :=
  match series with
  | [] => 0
  | _ =>
    match series_quantile (1 # 4) series, series_quantile (3 # 4) series with
    | Val Q1, Val Q3 =>
      let IQR := (Q3 - Q1)%Q in
      if Qeq_bool IQR 0 then 0
      else
        let lower_bound := (Q1 - (3 # 2) * IQR)%Q in
        let upper_bound := (Q3 + (3 # 2) * IQR)%Q in
        Z.of_nat (mask_sum
          (map (fun x => Qltb x lower_bound || Qltb upper_bound x) series))
    | _, _ => 0
    end
  end.

(** The body of the numeric loop of [statistical_summary], for the values
    [col_series] left by [dropna()]. *)
Definition numeric_summary (col_series : list Q) : NumericSummary.t :=
  match col_series with
  | [] =>
    {| NumericSummary.mean := None;
       NumericSummary.median := None;
       NumericSummary.std := None;
       NumericSummary.min := None;
       NumericSummary.max := None;
       NumericSummary.skewness := None;
       NumericSummary.kurtosis := None;
       NumericSummary.outliers_count := 0 |}
  | _ =>
    {| NumericSummary.mean := Some (series_mean col_series);
       NumericSummary.median := Some (series_median col_series);
       NumericSummary.std := Some (series_std col_series);
       NumericSummary.min := Some (series_min col_series);
       NumericSummary.max := Some (series_max col_series);
       NumericSummary.skewness :=
         Some (if (1 <? length col_series)%nat then stats_skew col_series
               else Val (Surd 0 1));
       NumericSummary.kurtosis :=
         Some (if (1 <? length col_series)%nat then stats_kurtosis col_series
               else Val 0%Q);
       NumericSummary.outliers_count := _detect_outliers col_series |}
  end.

(** The body of the categorical loop of [statistical_summary]. *)
Definition categorical_summary (col_series : list (option string))
  : result CategoricalSummary.t :=
  mode_val ← (if negb (empty (series_mode col_series))
              then v ← iloc0 (series_mode col_series); Ok (Some v)
              else Ok None);
  Ok {| CategoricalSummary.unique_count := Z.of_nat (nunique col_series);
        CategoricalSummary.most_frequent := mode_val;
        CategoricalSummary.value_counts :=
          map (fun kn => (kn.1, Z.of_nat kn.2)) (take 10 (value_counts col_series)) |}.

(** The trend test of [detect_patterns] on the values [ser] left by
    [dropna()], in row order. *)
Definition column_trend (ser : list Q) : option string :=
  if (3 <=? length ser)%nat then
    let diffs := dropna (series_diff ser) in
    if forallb (fun d => Qltb 0 d) diffs then Some "increasing"%string
    else if forallb (fun d => Qltb d 0) diffs then Some "decreasing"%string
    else None
  else None.

(** The anomaly test of [detect_patterns] on the values left by
    [dropna()]. *)
Definition column_anomalies (ser : list Q) : option Z :=
  if (5 <? length ser)%nat then
    let zscores := np_abs (stats_zscore 0 ser) in
    let anomalies := mask_sum (gt_mask zscores 3) in
    if (0 <? anomalies)%nat then Some (Z.of_nat anomalies) else None
  else None.

(** A reference to a data frame in the store. *)
Definition loc : Type := positive.

(** The attributes of an analyzer object. *)
Module DataAnalyzer.
Record t : Type := mk {
  df : loc;
  analysis_results : gmap string string
}.
End DataAnalyzer.

Section Analyzer.

(** [df.memory_usage(deep=True).sum()]: the byte estimate of pandas,
    informational only. *)
Variable memory_usage_sum : DataFrame -> Z.

Definition basic_info (df : DataFrame) : result BasicInfo.t :=
  Ok {| BasicInfo.shape := (nrows df, length (columns df));
        BasicInfo.columns := labels df;
        BasicInfo.dtypes :=
          to_dict (map (fun c => (label c, dtype_name (data c))) (columns df));
        BasicInfo.memory_usage := memory_usage_sum df;
        BasicInfo.missing_values := to_dict (isnull_sum df);
        BasicInfo.duplicate_rows := Z.of_nat (mask_sum (duplicated df)) |}.

Definition statistical_summary (df : DataFrame) : result StatsSummary.t :=
  let numeric_cols := labels (select_dtypes is_number df) in
  let categorical_cols := labels (select_dtypes is_object_or_category df) in
  numerical ← for_each numeric_cols (fun col acc =>
    s ← getitem df col;
    xs ← to_numeric s;
    let col_series := dropna xs in
    Ok (<[col := numeric_summary col_series]> acc)) ∅;
  categorical ← for_each categorical_cols (fun col acc =>
    s ← getitem df col;
    col_series ← to_object s;
    summary ← categorical_summary col_series;
    Ok (<[col := summary]> acc)) ∅;
  Ok {| StatsSummary.numerical := numerical;
        StatsSummary.categorical := categorical |}.

(** The double loop over [i < j] of the correlation analysis. *)
Definition high_correlations (corr_matrix : Matrix) : result (list Correlation.t) :=
  let n := length (m_columns corr_matrix) in
  for_each (range 0 n) (fun i acc =>
    for_each (range (i + 1) n) (fun j acc =>
      corr_val ← iloc corr_matrix i j;
      match corr_val with
      | NaN => Ok acc
      | Val r =>
        if surd_gtb (surd_abs r) (7 # 10) then
          var1 ← columns_at corr_matrix i;
          var2 ← columns_at corr_matrix j;
          Ok (acc ++ [Correlation.mk var1 var2 r])
        else Ok acc
      end) acc) [].

Definition detect_patterns (df : DataFrame) : result Patterns.t :=
  let numeric_df := select_dtypes is_number df in
  correlations ← (if (1 <? length (columns numeric_df))%nat then
                    corr_matrix ← df_corr numeric_df;
                    high_correlations corr_matrix
                  else Ok []);
  trends ← for_each (labels numeric_df) (fun col acc =>
    s ← getitem numeric_df col;
    xs ← to_numeric s;
    match column_trend (dropna xs) with
    | Some t => Ok (acc ++ [Trend.mk col t])
    | None => Ok acc
    end) [];
  anomalies ← for_each (labels numeric_df) (fun col acc =>
    s ← getitem numeric_df col;
    xs ← to_numeric s;
    match column_anomalies (dropna xs) with
    | Some k => Ok (acc ++ [Anomaly.mk col k])
    | None => Ok acc
    end) [];
  Ok {| Patterns.correlations := correlations;
        Patterns.trends := trends;
        Patterns.anomalies := anomalies |}.

(** *** The analyzer object and the store of data frames

    Data frames are mutable objects; a variable holds a reference into
    the store.  [__init__] stores a reference to a fresh copy. *)

(** Computations on the store that may raise. *)
Definition M (A : Type) : Type :=
  gmap positive DataFrame -> result (A * gmap positive DataFrame).

Definition load (l : loc) : M DataFrame := fun h =>
  match h !! l with
  | Some d => Ok (d, h)
  | None => Raise KeyError
  end.

Definition alloc (d : DataFrame) : M loc := fun h =>
  let l := fresh (dom h) in Ok (l, <[l := d]> h).

Definition lift {A} (r : result A) : M A := fun h =>
  match r with
  | Ok a => Ok (a, h)
  | Raise e => Raise e
  end.

Definition bindM {A B} (m : M A) (f : A -> M B) : M B := fun h =>
  match m h with
  | Ok (a, h') => f a h'
  | Raise e => Raise e
  end.

(** [DataAnalyzer.__init__]: [self.df = df.copy()] *)
Definition __init__ (df : loc) : M DataAnalyzer.t :=
  bindM (load df) (fun d =>
  bindM (alloc (df_copy d)) (fun l =>
  lift (Ok (DataAnalyzer.mk l ∅)))).

Inductive method : Type :=
  | m_basic_info
  | m_statistical_summary
  | m_detect_patterns.

Inductive output : Type :=
  | out_basic_info (b : BasicInfo.t)
  | out_statistical_summary (s : StatsSummary.t)
  | out_detect_patterns (p : Patterns.t).

(** A method call [self.m()]: every method reads [self.df]. *)
Definition call (self : DataAnalyzer.t) (m : method) : M output :=
  bindM (load (DataAnalyzer.df self)) (fun d =>
  match m with
  | m_basic_info => lift (out_basic_info <$> basic_info d)
  | m_statistical_summary => lift (out_statistical_summary <$> statistical_summary d)
  | m_detect_patterns => lift (out_detect_patterns <$> detect_patterns d)
  end).

(** A sequence of method calls on one analyzer. *)
Fixpoint calls (self : DataAnalyzer.t) (ms : list method) : M (list output) :=
  match ms with
  | [] => lift (Ok [])
  | m :: ms' =>
    bindM (call self m) (fun o =>
    bindM (calls self ms') (fun os => lift (Ok (o :: os))))
  end.

End Analyzer.

(** * Properties *)

(** ** Comparisons on rationals *)

Lemma Qltb_lt (x y : Q) : Qltb x y = true <-> (x < y)%Q.
Proof.
  unfold Qltb. rewrite negb_true_iff, <- not_true_iff_false, Qle_bool_iff.
  split; [apply Qnot_le_lt | apply Qlt_not_le].
Qed.

Lemma Qltb_ge (x y : Q) : Qltb x y = false <-> (y <= x)%Q.
Proof.
  unfold Qltb. rewrite negb_false_iff. apply Qle_bool_iff.
Qed.

(** ** The upload size check *)

Lemma size_mb_le (n m : Z) :
  Qle_bool (inject_Z n / inject_Z MiB) (inject_Z m) = true <-> n <= m * MiB.
Proof.
  rewrite Qle_bool_iff. unfold Qle, Qdiv, Qmult, Qinv, inject_Z, MiB. simpl.
  lia.
Qed.

(** C10, as the code has it: the file is accepted exactly when its size
    is at most the configured number of MiB (a file of exactly the
    maximum passes), and the rejection message carries the measured size
    in MB to one decimal and the configured limit. *)
Theorem check_file_size_bytes_spec (cfg : Config.t) (n : Z) :
  ((check_file_size_bytes cfg n).1 = true <-> n <= Config.MAX_FILE_SIZE cfg * MiB) /\
  ((check_file_size_bytes cfg n).1 = false ->
   (check_file_size_bytes cfg n).2 =
     ("File size " +:+ format_1f (inject_Z n / inject_Z MiB) +:+
      " MB exceeds the maximum allowed " +:+ pretty (Config.MAX_FILE_SIZE cfg) +:+
      " MB.")%string).
Proof.
  unfold check_file_size_bytes.
  destruct (Qle_bool _ _) eqn:E; simpl.
  - apply size_mb_le in E. split; [tauto | discriminate].
  - split; [| reflexivity].
    split; [discriminate |]. intros H. apply size_mb_le in H. congruence.
Qed.

Lemma check_file_size_bytes_spec_witness :
  (check_file_size_bytes Config.default 314572800).1 = false /\
  (check_file_size_bytes Config.default 314572800).2 =
    "File size 300.0 MB exceeds the maximum allowed 200 MB."%string.
Proof.
  split; [vm_compute; reflexivity |].
  rewrite (proj2 (check_file_size_bytes_spec Config.default 314572800));
    vm_compute; reflexivity.
Defined.

(** C10, as stated, fails at the boundary: a file of exactly 200 MiB is
    accepted although its size is not below the maximum. *)
Lemma check_file_size_bytes_boundary :
  ~ ((check_file_size_bytes Config.default 209715200).1 = true <->
     209715200 < Config.MAX_FILE_SIZE Config.default * MiB).
Proof.
  intros [H _].
  assert (E : (check_file_size_bytes Config.default 209715200).1 = true)
    by (vm_compute; reflexivity).
  specialize (H E). vm_compute in H. discriminate.
Qed.

(** ** Loops and columns *)

(** The float view of a numeric series and the values [dropna()] leaves,
    in row order. *)
Definition floats (s : series) : list (option Q) :=
  match s with
  | Float64 xs => xs
  | Int64 xs => map (fun z => Some (inject_Z z)) xs
  | _ => []
  end.

Definition values_of (c : column) : list Q := dropna (floats (data c)).

Definition numeric_columns (df : DataFrame) : list column :=
  columns (select_dtypes is_number df).

Lemma to_numeric_floats (s : series) :
  is_number s = true -> to_numeric s = Ok (floats s).
Proof. destruct s; simpl; intros; congruence. Qed.

Lemma numeric_columns_spec (df : DataFrame) (c : column) :
  c ∈ numeric_columns df <-> c ∈ columns df /\ is_number (data c) = true.
Proof.
  unfold numeric_columns, select_dtypes. simpl.
  rewrite !list_elem_of_In, filter_In. reflexivity.
Qed.

Lemma NoDup_labels_filter (f : column -> bool) (cs : list column) :
  NoDup (map label cs) -> NoDup (map label (List.filter f cs)).
Proof.
  induction cs as [| c cs IH]; simpl; [auto |].
  rewrite NoDup_cons. intros [Hn Hd].
  destruct (f c); simpl; [| auto].
  apply NoDup_cons. split; [| auto].
  intros Hin. apply Hn.
  apply list_elem_of_fmap in Hin as (c' & -> & Hc').
  apply list_elem_of_fmap. exists c'. split; [reflexivity |].
  apply list_elem_of_In, filter_In in Hc'. apply list_elem_of_In. tauto.
Qed.

Lemma wf_select (f : series -> bool) (df : DataFrame) :
  wf df -> wf (select_dtypes f df).
Proof.
  intros [Hn Hl]. split.
  - apply NoDup_labels_filter. exact Hn.
  - unfold select_dtypes. simpl. rewrite Forall_forall in *.
    intros c Hc. apply Hl.
    apply list_elem_of_In, filter_In in Hc. apply list_elem_of_In. tauto.
Qed.

Lemma find_label (cs : list column) (c : column) :
  NoDup (map label cs) -> c ∈ cs ->
  List.find (fun c' => String.eqb (label c') (label c)) cs = Some c.
Proof.
  induction cs as [| c0 cs IH]; simpl; intros Hn Hc.
  - inversion Hc.
  - apply NoDup_cons in Hn as [Hn0 Hn].
    apply elem_of_cons in Hc as [-> | Hc].
    + rewrite String.eqb_refl. reflexivity.
    + destruct (String.eqb (label c0) (label c)) eqn:E.
      * apply String.eqb_eq in E. exfalso. apply Hn0. rewrite E.
        apply list_elem_of_fmap. eauto.
      * auto.
Qed.

Lemma getitem_wf (df : DataFrame) (c : column) :
  wf df -> c ∈ columns df -> getitem df (label c) = Ok (data c).
Proof.
  intros [Hn _] Hc. unfold getitem. rewrite find_label; auto.
Qed.

Lemma for_each_fmap {A B S} (g : A -> B) (l : list A) (body : B -> S -> result S) (s : S) :
  for_each (map g l) body s = for_each l (fun x => body (g x)) s.
Proof.
  revert s. induction l as [| x l IH]; simpl; intros s; [reflexivity |].
  destruct (body (g x) s); simpl; auto.
Qed.

(** A loop whose body never raises is a fold. *)
Lemma for_each_fold {A S} (l : list A) (body : A -> S -> result S) (f : S -> A -> S) (s : S) :
  (forall x s', x ∈ l -> body x s' = Ok (f s' x)) ->
  for_each l body s = Ok (foldl f s l).
Proof.
  revert s. induction l as [| x l IH]; simpl; intros s H; [reflexivity |].
  rewrite H by apply list_elem_of_here. simpl.
  apply IH. intros y s' Hy. apply H. apply list_elem_of_further, Hy.
Qed.

Lemma foldl_app_omap {A B} (g : A -> option B) (l : list A) (acc : list B) :
  foldl (fun acc x => match g x with Some b => acc ++ [b] | None => acc end) acc l
  = acc ++ omap g l.
Proof.
  revert acc. induction l as [| x l IH]; simpl; intros acc.
  - rewrite app_nil_r. reflexivity.
  - rewrite IH. destruct (g x); simpl; [| reflexivity].
    rewrite <- app_assoc. reflexivity.
Qed.

Lemma foldl_insert_lookup {V} (g : column -> V) (cs : list column)
    (m : gmap string V) (c : column) :
  NoDup (map label cs) -> c ∈ cs ->
  foldl (fun m c => <[label c := g c]> m) m cs !! label c = Some (g c).
Proof.
  revert m. induction cs as [| c0 cs IH]; simpl; intros m Hn Hc.
  - inversion Hc.
  - apply NoDup_cons in Hn as [Hn0 Hn].
    apply elem_of_cons in Hc as [-> | Hc]; [| auto].
    clear IH. revert m. induction cs as [| c1 cs IH]; simpl; intros m.
    + apply lookup_insert_eq.
    + apply NoDup_cons in Hn as [_ Hn].
      destruct (decide (label c1 = label c0)) as [E | E].
      * exfalso. apply Hn0. rewrite <- E. simpl. apply list_elem_of_here.
      * rewrite insert_insert_ne by congruence.
        apply IH; [| exact Hn].
        intros H. apply Hn0. simpl. apply list_elem_of_further, H.
Qed.

Lemma foldl_insert_notin {V} (g : column -> V) (cs : list column)
    (m : gmap string V) (k : string) :
  k ∉ map label cs ->
  foldl (fun m c => <[label c := g c]> m) m cs !! k = m !! k.
Proof.
  revert m. induction cs as [| c0 cs IH]; simpl; intros m Hk; [reflexivity |].
  rewrite IH.
  - apply lookup_insert_ne. intros E. apply Hk. rewrite E. apply list_elem_of_here.
  - intros H. apply Hk. apply list_elem_of_further, H.
Qed.

(** ** The closed form of [detect_patterns] *)

(** The finding of the pair of numeric columns at positions [i] and [j]. *)
Definition finding (cs : list column) (ij : nat * nat) : option Correlation.t :=
  match cs !! ij.1, cs !! ij.2 with
  | Some ci, Some cj =>
    match pearson (floats (data ci)) (floats (data cj)) with
    | Val r =>
      if surd_gtb (surd_abs r) (7 # 10)
      then Some (Correlation.mk (label ci) (label cj) r)
      else None
    | NaN => None
    end
  | _, _ => None
  end.

(** The pairs [i < j < n] in loop order. *)
Definition pairs (n : nat) : list (nat * nat) :=
  flat_map (fun i => map (pair i) (range (i + 1) n)) (range 0 n).

Definition trend_finding (c : column) : option Trend.t :=
  Trend.mk (label c) <$> column_trend (values_of c).

Definition anomaly_finding (c : column) : option Anomaly.t :=
  Anomaly.mk (label c) <$> column_anomalies (values_of c).

Lemma mapM_ok {A B} (f : A -> result B) (g : A -> B) (l : list A) :
  (forall x, x ∈ l -> f x = Ok (g x)) -> mapM f l = Ok (map g l).
Proof.
  induction l as [| x l IH]; simpl; intros H; [reflexivity |].
  rewrite H by apply list_elem_of_here. simpl.
  rewrite IH; [reflexivity |].
  intros y Hy. apply H, list_elem_of_further, Hy.
Qed.

Lemma elem_of_range (a b i : nat) : i ∈ range a b <-> (a <= i < b)%nat.
Proof. unfold range. rewrite list_elem_of_In, in_seq. lia. Qed.

Lemma foldl_app_flat {A B} (F : A -> list B) (l : list A) (acc : list B) :
  foldl (fun acc x => acc ++ F x) acc l = acc ++ flat_map F l.
Proof.
  revert acc. induction l as [| x l IH]; simpl; intros acc.
  - rewrite app_nil_r. reflexivity.
  - rewrite IH, app_assoc. reflexivity.
Qed.

Lemma omap_flat_map {A B C} (g : B -> option C) (F : A -> list B) (l : list A) :
  flat_map (fun x => omap g (F x)) l = omap g (flat_map F l).
Proof.
  induction l as [| x l IH]; simpl; [reflexivity |].
  rewrite omap_app, IH. reflexivity.
Qed.

Lemma omap_map {A B C} (h : A -> B) (g : B -> option C) (l : list A) :
  omap g (map h l) = omap (fun x => g (h x)) l.
Proof.
  induction l as [| x l IH]; [reflexivity |].
  cbn. rewrite IH. reflexivity.
Qed.

Lemma df_corr_numeric (df : DataFrame) :
  Forall (fun c => is_number (data c) = true) (columns df) ->
  df_corr df =
    Ok {| m_columns := labels df;
          m_values :=
            map (fun a => map (fun b => pearson a b)
                              (map (fun c => floats (data c)) (columns df)))
                (map (fun c => floats (data c)) (columns df)) |}.
Proof.
  intros H. unfold df_corr.
  rewrite (mapM_ok _ (fun c => floats (data c))).
  - reflexivity.
  - intros c Hc. apply to_numeric_floats.
    rewrite Forall_forall in H. apply H, Hc.
Qed.

Lemma high_correlations_closed (cs : list column) :
  high_correlations
    {| m_columns := map label cs;
       m_values :=
         map (fun a => map (fun b => pearson a b)
                           (map (fun c => floats (data c)) cs))
             (map (fun c => floats (data c)) cs) |}
  = Ok (omap (finding cs) (pairs (length cs))).
Proof.
  unfold high_correlations. simpl. rewrite length_map.
  set (n := length cs).
  rewrite (for_each_fold _ _
    (fun acc i => acc ++ omap (finding cs) (map (pair i) (range (i + 1) n)))).
  - rewrite foldl_app_flat. simpl. unfold pairs.
    rewrite omap_flat_map. reflexivity.
  - intros i acc Hi. apply elem_of_range in Hi.
    rewrite (for_each_fold _ _
      (fun acc j => match finding cs (i, j) with
                    | Some f => acc ++ [f]
                    | None => acc
                    end)).
    + rewrite (foldl_app_omap (fun j => finding cs (i, j))).
      rewrite omap_map. reflexivity.
    + intros j acc' Hj. apply elem_of_range in Hj.
      destruct (lookup_lt_is_Some_2 cs i) as [ci Hci]; [fold n; lia |].
      destruct (lookup_lt_is_Some_2 cs j) as [cj Hcj]; [fold n; lia |].
      unfold iloc, columns_at, finding. simpl.
      rewrite !list_lookup_fmap, Hci, Hcj. simpl.
      rewrite !list_lookup_fmap, Hcj. simpl.
      destruct (pearson _ _) as [| r]; [reflexivity |].
      destruct (surd_gtb _ _); reflexivity.
Qed.

Lemma numeric_columns_numeric (df : DataFrame) :
  Forall (fun c => is_number (data c) = true) (numeric_columns df).
Proof.
  rewrite Forall_forall. intros c Hc.
  apply numeric_columns_spec in Hc. tauto.
Qed.

Lemma detect_patterns_closed (df : DataFrame) :
  wf df ->
  detect_patterns df =
    Ok {| Patterns.correlations :=
            if (1 <? length (numeric_columns df))%nat
            then omap (finding (numeric_columns df))
                      (pairs (length (numeric_columns df)))
            else [];
          Patterns.trends := omap trend_finding (numeric_columns df);
          Patterns.anomalies := omap anomaly_finding (numeric_columns df) |}.
Proof.
  intros Hwf. unfold detect_patterns.
  fold (numeric_columns df).
  assert (Hsel : wf (select_dtypes is_number df)) by (apply wf_select, Hwf).
  assert (Hget : forall c, c ∈ numeric_columns df ->
            getitem (select_dtypes is_number df) (label c) = Ok (data c) /\
            to_numeric (data c) = Ok (floats (data c))).
  { intros c Hc. split; [apply getitem_wf; auto |].
    apply to_numeric_floats. apply numeric_columns_spec in Hc. tauto. }
  assert (Hcorr :
    (if (1 <? length (numeric_columns df))%nat
     then corr_matrix ← df_corr (select_dtypes is_number df);
          high_correlations corr_matrix
     else Ok [])
    = Ok (if (1 <? length (numeric_columns df))%nat
          then omap (finding (numeric_columns df))
                    (pairs (length (numeric_columns df)))
          else [])).
  { destruct (1 <? _)%nat; [| reflexivity].
    rewrite df_corr_numeric by apply numeric_columns_numeric.
    simpl. apply high_correlations_closed. }
  rewrite Hcorr. simpl.
  unfold labels. fold (numeric_columns df).
  rewrite !for_each_fmap.
  rewrite (for_each_fold _ _
    (fun acc c => match trend_finding c with
                  | Some b => acc ++ [b]
                  | None => acc
                  end)).
  2:{ intros c acc Hc. destruct (Hget c Hc) as [E1 E2].
      rewrite E1. simpl. rewrite E2. simpl.
      unfold trend_finding. fold (values_of c).
      destruct (column_trend (values_of c)); reflexivity. }
  rewrite foldl_app_omap. simpl.
  rewrite (for_each_fold _ _
    (fun acc c => match anomaly_finding c with
                  | Some b => acc ++ [b]
                  | None => acc
                  end)).
  2:{ intros c acc Hc. destruct (Hget c Hc) as [E1 E2].
      rewrite E1. simpl. rewrite E2. simpl.
      unfold anomaly_finding. fold (values_of c).
      destruct (column_anomalies (values_of c)); reflexivity. }
  rewrite foldl_app_omap. reflexivity.
Qed.

(** ** Trends *)


Lemma label_inj (cs : list column) (c c' : column) :
  NoDup (map label cs) -> c ∈ cs -> c' ∈ cs -> label c = label c' -> c = c'.
Proof.
  induction cs as [| c0 cs IH]; simpl; intros Hn Hc Hc' E.
  - inversion Hc.
  - apply NoDup_cons in Hn as [Hn0 Hn].
    apply elem_of_cons in Hc as [-> | Hc];
      apply elem_of_cons in Hc' as [-> | Hc']; auto.
    + exfalso. apply Hn0. rewrite E. apply list_elem_of_fmap. eauto.
    + exfalso. apply Hn0. rewrite <- E. apply list_elem_of_fmap. eauto.
Qed.

Lemma numeric_columns_NoDup (df : DataFrame) :
  wf df -> NoDup (map label (numeric_columns df)).
Proof. intros H. apply (wf_select is_number) in H. apply H. Qed.


Lemma elem_of_anomalies (df : DataFrame) (c : column) (k : Z) :
  wf df -> c ∈ numeric_columns df ->
  Anomaly.mk (label c) k ∈ omap anomaly_finding (numeric_columns df)
  <-> column_anomalies (values_of c) = Some k.
Proof.
  intros Hwf Hc. rewrite list_elem_of_omap. unfold anomaly_finding. split.
  - intros (c' & Hc' & E).
    destruct (column_anomalies (values_of c')) as [k' |] eqn:Ek; [| discriminate].
    simpl in E. injection E as El ->.
    rewrite <- (label_inj _ c' c (numeric_columns_NoDup df Hwf) Hc' Hc El).
    exact Ek.
  - intros E. exists c. rewrite E. auto.
Qed.








(** ** Anomalies *)

#[global] Instance Qlt_decision (x y : Q) : Decision (x < y)%Q.
Proof.
  destruct (Qltb x y) eqn:E.
  - left. apply Qltb_lt, E.
  - right. apply Qle_not_lt, Qltb_ge, E.
Defined.

(** A value lies more than three deviations from the mean of [vs]:
    [|x - mean| / std > 3] with [std^2 = sum (v - mean)^2 / (n - ddof)],
    stated on the squares. *)
Definition beyond_3_sigma (ddof : nat) (vs : list Q) (x : Q) : Prop :=
  (9 * (dev_sum 2 vs / inject_Z (Z.of_nat (length vs - ddof)))
   < (x - avg vs) * (x - avg vs))%Q.

#[global] Instance beyond_3_sigma_decision ddof vs x :
  Decision (beyond_3_sigma ddof vs x).
Proof. unfold beyond_3_sigma. apply _. Defined.

(** The number of values of [vs] whose absolute z-score exceeds 3. *)
Definition zscore_count (ddof : nat) (vs : list Q) : nat :=
  length (filter (beyond_3_sigma ddof vs) vs).

Lemma mask_sum_filter {A} (f : A -> bool) (P : A -> Prop)
    `{forall x, Decision (P x)} (l : list A) :
  (forall x, x ∈ l -> f x = true <-> P x) ->
  mask_sum (map f l) = length (filter P l).
Proof.
  unfold mask_sum.
  induction l as [| x l IH]; intros Hl; [reflexivity |].
  assert (IH' : length (List.filter (fun b : bool => b) (map f l))
                = length (filter P l)).
  { apply IH. intros y Hy. apply Hl, list_elem_of_further, Hy. }
  specialize (Hl x (list_elem_of_here _ _)).
  rewrite filter_cons. simpl.
  destruct (f x) eqn:E; destruct (decide (P x)) as [HP | HP]; simpl.
  - rewrite IH'. reflexivity.
  - exfalso. apply HP, Hl. reflexivity.
  - apply Hl in HP. discriminate.
  - exact IH'.
Qed.

Lemma Qsum_nonneg (l : list Q) :
  Forall (fun x => 0 <= x)%Q l -> (0 <= Qsum l)%Q.
Proof.
  induction 1 as [| x l Hx _ IH]; simpl; [apply Qle_refl | lra].
Qed.

Lemma Qsum_zero (l : list Q) :
  Forall (fun x => 0 <= x)%Q l -> (Qsum l == 0)%Q ->
  Forall (fun x => x == 0)%Q l.
Proof.
  induction 1 as [| x l Hx Hl IH]; simpl; intros E; [constructor |].
  pose proof (Qsum_nonneg l Hl).
  constructor; [lra | apply IH; lra].
Qed.

Lemma Qsq_nonneg (y : Q) : (0 <= y * y)%Q.
Proof. nra. Qed.

Lemma squares_nonneg (a : Q) (vs : list Q) :
  Forall (fun x => 0 <= x)%Q (map (fun x => Qpower_positive (x - a) 2) vs).
Proof.
  rewrite Forall_fmap, Forall_forall. intros x _.
  change (0 <= (x - a) * (x - a))%Q. apply Qsq_nonneg.
Qed.

Lemma dev_sum_nonneg (vs : list Q) : (0 <= dev_sum 2 vs)%Q.
Proof. apply Qsum_nonneg, squares_nonneg. Qed.

Lemma dev_sum_zero (vs : list Q) (x : Q) :
  (dev_sum 2 vs == 0)%Q -> x ∈ vs -> (x - avg vs == 0)%Q.
Proof.
  intros E Hx.
  pose proof (Qsum_zero _ (squares_nonneg (avg vs) vs) E) as H.
  rewrite Forall_fmap, Forall_forall in H.
  specialize (H x Hx).
  change ((x - avg vs) * (x - avg vs) == 0)%Q in H.
  apply Qmult_integral in H. tauto.
Qed.

(** The test [|d / sqrt v| > t] of the code, decided on the squares. *)
Lemma surd_gtb_sq (d v t : Q) :
  (0 < v)%Q -> (0 <= t)%Q ->
  surd_gtb (surd_abs (surd_div d v)) t = true <-> (t * t * v < d * d)%Q.
Proof.
  intros Hv Ht. unfold surd_gtb, surd_abs, surd_div. cbn [coef radicand].
  rewrite andb_true_iff, !Qltb_lt.
  set (c := (d / v)%Q).
  assert (Ed : (d == c * v)%Q) by (unfold c; field; lra).
  assert (Ea : (Qabs c * Qabs c == c * c)%Q).
  { rewrite <- Qabs_Qmult. apply Qabs_pos, Qsq_nonneg. }
  rewrite Ea, Ed.
  pose proof (Qsq_nonneg t) as Htt.
  split.
  - intros [_ H]. nra.
  - intros H. split.
    + pose proof (Qabs_nonneg c) as H0.
      destruct (Qlt_le_dec 0 (Qabs c)) as [| Hle]; [assumption |].
      exfalso. assert (E0 : (Qabs c == 0)%Q) by lra.
      rewrite E0 in Ea. assert (E1 : (c * c == 0)%Q) by lra.
      nra.
    + nra.
Qed.

Lemma surd_gtb_3 (d v : Q) :
  (0 < v)%Q ->
  surd_gtb (surd_abs (surd_div d v)) 3 = true <-> (9 * v < d * d)%Q.
Proof.
  intros Hv. rewrite surd_gtb_sq by (assumption || discriminate).
  split; intros H; lra.
Qed.

(** What [stats.zscore], [np.abs], [> 3] and [sum] compute together. *)
Lemma zscore_mask_count (ddof : nat) (vs : list Q) :
  (ddof < length vs)%nat ->
  mask_sum (gt_mask (np_abs (stats_zscore ddof vs)) 3) = zscore_count ddof vs.
Proof.
  intros Hn. unfold stats_zscore, variance, zscore_count.
  destruct (length vs <=? ddof)%nat eqn:E; [apply Nat.leb_le in E; lia |].
  clear E.
  set (D := inject_Z (Z.of_nat (length vs - ddof))).
  assert (HD : (0 < D)%Q).
  { unfold D. change 0%Q with (inject_Z 0). rewrite <- Zlt_Qlt. lia. }
  pose proof (dev_sum_nonneg vs) as Hs.
  assert (Hv : (0 <= dev_sum 2 vs / D)%Q).
  { apply Qle_shift_div_l; [exact HD | lra]. }
  unfold gt_mask, np_abs.
  destruct (Qeq_bool (dev_sum 2 vs / D) 0) eqn:E.
  - apply Qeq_bool_eq in E. rewrite !map_map. simpl.
    apply mask_sum_filter. intros x Hx. split; [discriminate |].
    unfold beyond_3_sigma. fold D. intros H. exfalso.
    assert (Es : (dev_sum 2 vs == 0)%Q).
    { assert (E' : (dev_sum 2 vs == dev_sum 2 vs / D * D)%Q) by (field; lra).
      rewrite E', E. ring. }
    pose proof (dev_sum_zero vs x Es Hx) as Ex.
    rewrite E, Ex in H. lra.
  - apply Qeq_bool_neq in E. rewrite !map_map. simpl.
    apply mask_sum_filter. intros x Hx.
    unfold beyond_3_sigma. fold D.
    apply surd_gtb_3. lra.
Qed.

(** The anomaly test of the code, as a count of values beyond three
    population deviations. *)
Lemma column_anomalies_spec (vs : list Q) (k : Z) :
  column_anomalies vs = Some k
  <-> (5 < length vs)%nat /\ k = Z.of_nat (zscore_count 0 vs) /\
      (0 < zscore_count 0 vs)%nat.
Proof.
  unfold column_anomalies.
  destruct (5 <? length vs)%nat eqn:E.
  - apply Nat.ltb_lt in E. rewrite zscore_mask_count by lia.
    destruct (0 <? zscore_count 0 vs)%nat eqn:E0.
    + apply Nat.ltb_lt in E0. split.
      * intros [= <-]. auto.
      * intros (_ & -> & _). reflexivity.
    + apply Nat.ltb_ge in E0. split; [discriminate | lia].
  - apply Nat.ltb_ge in E. split; [discriminate | lia].
Qed.


(** Eleven readings with one large value. *)
Definition readings : DataFrame :=
  {| nrows := 11;
     columns :=
       [Column "x" (Float64 (map Some [0; 0; 0; 0; 0; 0; 0; 0; 1; 2; 9]%Q))] |}.

Ltac solve_wf :=
  split; [apply (bool_decide_unpack _); vm_compute; exact I
         | repeat constructor].

Lemma readings_wf : wf readings.
Proof. solve_wf. Qed.



(** A small table: a rising column, a falling column and a text column. *)
Definition sales : DataFrame :=
  {| nrows := 3;
     columns :=
       [Column "units" (Float64 [Some 1; Some 2; Some 4]%Q);
        Column "price" (Int64 [9; 7; 2]);
        Column "region" (Object [Some "north"; None; Some "north"]%string)] |}.

Lemma sales_wf : wf sales.
Proof. solve_wf. Qed.


(** ** Outliers *)








(** ** The closed form of [statistical_summary] *)

(** The object view of a text series. *)
Definition texts (s : series) : list (option string) :=
  match s with
  | Object xs => xs
  | Category xs => xs
  | _ => []
  end.

Definition categorical_columns (df : DataFrame) : list column :=
  columns (select_dtypes is_object_or_category df).

Definition category_summary (xs : list (option string)) : CategoricalSummary.t :=
  {| CategoricalSummary.unique_count := Z.of_nat (nunique xs);
     CategoricalSummary.most_frequent := head (series_mode xs);
     CategoricalSummary.value_counts :=
       map (fun kn => (kn.1, Z.of_nat kn.2)) (take 10 (value_counts xs)) |}.

Lemma to_object_texts (s : series) :
  is_object_or_category s = true -> to_object s = Ok (texts s).
Proof. destruct s; simpl; intros; congruence. Qed.

Lemma categorical_columns_spec (df : DataFrame) (c : column) :
  c ∈ categorical_columns df
  <-> c ∈ columns df /\ is_object_or_category (data c) = true.
Proof.
  unfold categorical_columns, select_dtypes. simpl.
  rewrite !list_elem_of_In, filter_In. reflexivity.
Qed.

(** The guard on [mode().empty] keeps [iloc[0]] from raising. *)
Lemma categorical_summary_ok (xs : list (option string)) :
  categorical_summary xs = Ok (category_summary xs).
Proof.
  unfold categorical_summary, category_summary.
  destruct (series_mode xs); reflexivity.
Qed.

Lemma statistical_summary_closed (df : DataFrame) :
  wf df ->
  statistical_summary df =
    Ok {| StatsSummary.numerical :=
            foldl (fun m c => <[label c := numeric_summary (values_of c)]> m)
                  ∅ (numeric_columns df);
          StatsSummary.categorical :=
            foldl (fun m c => <[label c := category_summary (texts (data c))]> m)
                  ∅ (categorical_columns df) |}.
Proof.
  intros Hwf. unfold statistical_summary, labels.
  fold (numeric_columns df). fold (categorical_columns df).
  rewrite !for_each_fmap.
  rewrite (for_each_fold (numeric_columns df) _
    (fun m c => <[label c := numeric_summary (values_of c)]> m)).
  2:{ intros c m Hc. apply numeric_columns_spec in Hc as [Hc Hn].
      rewrite getitem_wf by assumption. simpl.
      rewrite to_numeric_floats by assumption. reflexivity. }
  simpl.
  rewrite (for_each_fold (categorical_columns df) _
    (fun m c => <[label c := category_summary (texts (data c))]> m)).
  2:{ intros c m Hc. apply categorical_columns_spec in Hc as [Hc Hn].
      rewrite getitem_wf by assumption. simpl.
      rewrite to_object_texts by assumption. simpl.
      rewrite categorical_summary_ok. reflexivity. }
  reflexivity.
Qed.

Lemma categorical_columns_NoDup (df : DataFrame) :
  wf df -> NoDup (map label (categorical_columns df)).
Proof. intros H. apply (wf_select is_object_or_category) in H. apply H. Qed.


Lemma categorical_lookup (df : DataFrame) (c : column) :
  wf df -> c ∈ columns df -> is_object_or_category (data c) = true ->
  exists s : StatsSummary.t,
    statistical_summary df = Ok s /\
    StatsSummary.categorical s !! label c
    = Some (category_summary (texts (data c))).
Proof.
  intros Hwf Hc Hn. eexists. split; [apply statistical_summary_closed, Hwf |].
  simpl. apply (foldl_insert_lookup (fun c => category_summary (texts (data c)))).
  - apply categorical_columns_NoDup, Hwf.
  - apply categorical_columns_spec. auto.
Qed.

(** ** Columns without values *)

(** Every cell of the column is the missing marker. *)
Definition all_missing (c : column) : Prop :=
  Forall (fun x => x = NA) (cells (data c)).

Lemma dropna_all_None {A} (xs : list (option A)) :
  Forall (fun x => x = None) xs -> dropna xs = [].
Proof.
  induction 1 as [| x xs -> _ IH]; [reflexivity | exact IH].
Qed.

Lemma all_missing_values (c : column) :
  all_missing c -> values_of c = [].
Proof.
  unfold all_missing, values_of. destruct (data c) as [xs | xs | xs | xs | xs];
    simpl; intros H; try reflexivity.
  - apply dropna_all_None. rewrite Forall_fmap in H.
    eapply Forall_impl; [exact H |]. intros [q |]; simpl; [discriminate | auto].
  - destruct xs; [reflexivity |]. inversion H. discriminate.
Qed.

Lemma all_missing_texts (c : column) :
  all_missing c -> dropna (texts (data c)) = [].
Proof.
  unfold all_missing. destruct (data c) as [xs | xs | xs | xs | xs];
    simpl; intros H; try reflexivity;
    apply dropna_all_None; rewrite Forall_fmap in H;
    (eapply Forall_impl; [exact H |]);
    intros [q |]; simpl; (discriminate || auto).
Qed.

(** C6: a column whose values are all missing gets, without exception, a
    numeric summary whose statistics are all absent and whose outlier
    count is 0, or a categorical summary with unique count 0 and no most
    frequent value; and neither [statistical_summary] nor
    [detect_patterns] raises, whatever the columns hold (empty,
    single-value and constant columns included). *)
Theorem all_missing_summary (df : DataFrame) :
  wf df ->
  (exists s : StatsSummary.t,
     statistical_summary df = Ok s /\
     (forall c, c ∈ columns df -> is_number (data c) = true -> all_missing c ->
        StatsSummary.numerical s !! label c =
          Some {| NumericSummary.mean := None;
                  NumericSummary.median := None;
                  NumericSummary.std := None;
                  NumericSummary.min := None;
                  NumericSummary.max := None;
                  NumericSummary.skewness := None;
                  NumericSummary.kurtosis := None;
                  NumericSummary.outliers_count := 0 |}) /\
     (forall c, c ∈ columns df -> is_object_or_category (data c) = true ->
        all_missing c ->
        exists cs : CategoricalSummary.t,
          StatsSummary.categorical s !! label c = Some cs /\
          CategoricalSummary.unique_count cs = 0 /\
          CategoricalSummary.most_frequent cs = None)) /\
  (exists p : Patterns.t, detect_patterns df = Ok p).
Proof.
  intros Hwf. split.
  - eexists. split; [apply statistical_summary_closed, Hwf |]. simpl. split.
    + intros c Hc Hn Hm.
      rewrite (foldl_insert_lookup (fun c => numeric_summary (values_of c))).
      * rewrite all_missing_values by assumption. reflexivity.
      * apply numeric_columns_NoDup, Hwf.
      * apply numeric_columns_spec. auto.
    + intros c Hc Hn Hm. eexists. split.
      * apply (foldl_insert_lookup (fun c => category_summary (texts (data c)))).
        -- apply categorical_columns_NoDup, Hwf.
        -- apply categorical_columns_spec. auto.
      * unfold category_summary, nunique, series_mode. simpl.
        rewrite all_missing_texts by assumption. split; reflexivity.
  - eexists. apply detect_patterns_closed, Hwf.
Qed.

(** A table with an empty numeric and an empty text column. *)
Definition blanks : DataFrame :=
  {| nrows := 2;
     columns :=
       [Column "score" (Float64 [None; None]);
        Column "note" (Object [None; None])] |}.

Lemma all_missing_summary_witness :
  exists s : StatsSummary.t,
    statistical_summary blanks = Ok s /\
    (NumericSummary.std <$> StatsSummary.numerical s !! "score"%string) = Some None /\
    (NumericSummary.outliers_count <$> StatsSummary.numerical s !! "score"%string) = Some 0.
Proof.
  destruct (all_missing_summary blanks) as [(s & Hs & Hnum & _) _].
  - solve_wf.
  - exists s. split; [exact Hs |].
    pose proof (Hnum (Column "score" (Float64 [None; None]))
                  (list_elem_of_here _ _) eq_refl) as H.
    simpl in H. rewrite H by (repeat constructor).
    split; reflexivity.
Defined.

(** ** Constant columns *)

Lemma Qlen_cons (x : Q) (l : list Q) : (Qlen (x :: l) == Qlen l + 1)%Q.
Proof.
  unfold Qlen. simpl length. rewrite Nat2Z.inj_succ, <- Z.add_1_r.
  rewrite inject_Z_plus. reflexivity.
Qed.

Lemma Qsum_const (c0 : Q) (vs : list Q) :
  Forall (Qeq c0) vs -> (Qsum vs == Qlen vs * c0)%Q.
Proof.
  induction 1 as [| x l Hx _ IH].
  - unfold Qlen. simpl. ring.
  - rewrite Qlen_cons. simpl. rewrite IH, <- Hx. ring.
Qed.

Lemma Qlen_pos (vs : list Q) : vs <> [] -> (0 < Qlen vs)%Q.
Proof.
  intros H. unfold Qlen. change 0%Q with (inject_Z 0). rewrite <- Zlt_Qlt.
  destruct vs; [congruence | simpl; lia].
Qed.

Lemma avg_const (c0 : Q) (vs : list Q) :
  vs <> [] -> Forall (Qeq c0) vs -> (avg vs == c0)%Q.
Proof.
  intros Hne H. unfold avg. rewrite (Qsum_const c0) by assumption.
  pose proof (Qlen_pos vs Hne). field. lra.
Qed.

Lemma Qsum_zeros (l : list Q) : Forall (fun x => x == 0)%Q l -> (Qsum l == 0)%Q.
Proof.
  induction 1 as [| x l Hx _ IH]; simpl; [reflexivity |].
  rewrite Hx, IH. ring.
Qed.

Lemma dev_sum_const (c0 : Q) (vs : list Q) :
  vs <> [] -> Forall (Qeq c0) vs -> (dev_sum 2 vs == 0)%Q.
Proof.
  intros Hne H. unfold dev_sum. apply Qsum_zeros.
  rewrite Forall_fmap. eapply Forall_impl; [exact H |].
  intros x Hx. simpl.
  change ((x - avg vs) * (x - avg vs) == 0)%Q.
  rewrite (avg_const c0) by assumption. rewrite <- Hx. ring.
Qed.













(** ** Correlations *)




(** The columns at positions [i] and [j] have a defined Pearson
    coefficient [r] with [|r| > 0.7], and [f] is their finding. *)
Definition strongly_correlated (cs : list column) (i j : nat)
    (f : Correlation.t) : Prop :=
  exists (ci cj : column) (r : surd),
    cs !! i = Some ci /\ cs !! j = Some cj /\
    pearson (floats (data ci)) (floats (data cj)) = Val r /\
    surd_gtb (surd_abs r) (7 # 10) = true /\
    f = Correlation.mk (label ci) (label cj) r.

Lemma finding_spec (cs : list column) (i j : nat) (f : Correlation.t) :
  finding cs (i, j) = Some f <-> strongly_correlated cs i j f.
Proof.
  unfold finding, strongly_correlated. simpl. split.
  - destruct (cs !! i) as [ci |]; [| discriminate].
    destruct (cs !! j) as [cj |]; [| discriminate].
    destruct (pearson _ _) as [| r] eqn:Er; [discriminate |].
    destruct (surd_gtb _ _) eqn:Eg; [| discriminate].
    intros [= <-]. exists ci, cj, r. auto.
  - intros (ci & cj & r & -> & -> & -> & -> & ->). reflexivity.
Qed.



(** Without spread in one of the columns there is no covariance. *)
Lemma codev_sum_zero (ps : list (Q * Q)) :
  (dev_sum 2 ps.*1 == 0)%Q \/ (dev_sum 2 ps.*2 == 0)%Q ->
  (codev_sum ps == 0)%Q.
Proof.
  intros H. unfold codev_sum. apply Qsum_zeros.
  rewrite Forall_fmap, Forall_forall. intros p Hp. simpl.
  destruct H as [H | H].
  - rewrite (dev_sum_zero ps.*1 p.1 H); [ring |].
    apply list_elem_of_fmap. eauto.
  - rewrite (dev_sum_zero ps.*2 p.2 H); [ring |].
    apply list_elem_of_fmap. eauto.
Qed.

(** The test of the correlation loop on the sums of the complete pairs:
    the coefficient [cov / sqrt (ssx * ssy)] is defined and exceeds 0.7
    in absolute value. *)
Lemma pearson_strong (xs ys : list (option Q)) :
  (exists r, pearson xs ys = Val r /\ surd_gtb (surd_abs r) (7 # 10) = true)
  <-> pairwise_complete xs ys <> [] /\
      (49 * (dev_sum 2 (pairwise_complete xs ys).*1
             * dev_sum 2 (pairwise_complete xs ys).*2)
       < 100 * (codev_sum (pairwise_complete xs ys)
                * codev_sum (pairwise_complete xs ys)))%Q.
Proof.
  unfold pearson.
  generalize (pairwise_complete xs ys). intros ps.
  set (d := (dev_sum 2 ps.*1 * dev_sum 2 ps.*2)%Q).
  assert (Hd : (0 <= d)%Q).
  { unfold d. apply Qmult_le_0_compat; apply dev_sum_nonneg. }
  destruct (length ps <? 1)%nat eqn:El.
  - apply Nat.ltb_lt in El.
    split; [intros (r & H & _); discriminate |].
    intros [H _]. destruct ps; [congruence | simpl in El; lia].
  - apply Nat.ltb_ge in El.
    assert (Hne : ps <> []) by (destruct ps; [simpl in El; lia | discriminate]).
    destruct (Qeq_bool d 0) eqn:E.
    + apply Qeq_bool_eq in E. split; [intros (r & H & _); discriminate |].
      intros [_ H]. exfalso.
      assert (E0 : (codev_sum ps == 0)%Q).
      { apply codev_sum_zero, Qmult_integral, E. }
      rewrite E, E0 in H. lra.
    + apply Qeq_bool_neq in E.
      assert (Hpos : (0 < d)%Q).
      { apply Qle_lt_or_eq in Hd as [Hlt | Heq]; [exact Hlt |].
        exfalso. apply E. symmetry. exact Heq. }
      split.
      * intros (r & [= <-] & H). split; [exact Hne |].
        apply surd_gtb_sq in H; [| assumption | discriminate]. lra.
      * intros [_ H]. eexists. split; [reflexivity |].
        apply surd_gtb_sq; [assumption | discriminate |]. lra.
Qed.


(** ** Basic information *)

(** The two cells hold identical values; two missing cells are identical. *)
Definition cell_same (a b : cell) : Prop :=
  match a, b with
  | NA, NA => True
  | CFloat p, CFloat q => (p == q)%Q
  | CInt x, CInt y => x = y
  | CBool x, CBool y => x = y
  | CStr x, CStr y => x = y
  | _, _ => False
  end.

(** Rows [i] and [j] have identical values in every column. *)
Definition same_row (df : DataFrame) (i j : nat) : Prop :=
  forall c, c ∈ columns df ->
    cell_same (nth i (cells (data c)) NA) (nth j (cells (data c)) NA).

Lemma cell_eqb_same (a b : cell) : cell_eqb a b = true <-> cell_same a b.
Proof.
  destruct a, b; simpl; try (split; [discriminate | contradiction]).
  - tauto.
  - apply Qeq_bool_iff.
  - apply Z.eqb_eq.
  - destruct b, b0; simpl; split; auto; discriminate.
  - apply String.eqb_eq.
Qed.

Lemma cell_same_refl (a : cell) : cell_same a a.
Proof. destruct a; simpl; auto. reflexivity. Qed.

Lemma cell_same_sym (a b : cell) : cell_same a b -> cell_same b a.
Proof. destruct a, b; simpl; auto. intros H. symmetry. exact H. Qed.

Lemma cell_same_trans (a b c : cell) :
  cell_same a b -> cell_same b c -> cell_same a c.
Proof.
  destruct a, b, c; simpl; try tauto; try congruence.
  intros H1 H2. rewrite H1. exact H2.
Qed.

Lemma row_eqb_sym (r1 r2 : list cell) : row_eqb r1 r2 = true -> row_eqb r2 r1 = true.
Proof.
  revert r2. induction r1 as [| a r1 IH]; intros [| b r2]; simpl; auto.
  rewrite !andb_true_iff, !cell_eqb_same. intros [H1 H2].
  split; [apply cell_same_sym, H1 | apply IH, H2].
Qed.

Lemma row_eqb_trans (r1 r2 r3 : list cell) :
  row_eqb r1 r2 = true -> row_eqb r2 r3 = true -> row_eqb r1 r3 = true.
Proof.
  revert r2 r3. induction r1 as [| a r1 IH]; intros [| b r2] [| c r3]; simpl;
    auto; try discriminate.
  rewrite !andb_true_iff, !cell_eqb_same. intros [H1 H2] [H3 H4].
  split; [eapply cell_same_trans; eassumption | eapply IH; eassumption].
Qed.

Lemma row_eqb_same (df : DataFrame) (i j : nat) :
  row_eqb (row df i) (row df j) = true <-> same_row df i j.
Proof.
  unfold row, same_row. induction (columns df) as [| c cs IH]; simpl.
  - split; [intros _ c Hc; inversion Hc | reflexivity].
  - rewrite andb_true_iff, cell_eqb_same, IH. split.
    + intros [H1 H2] c' Hc'. apply elem_of_cons in Hc' as [-> | Hc']; auto.
    + intros H. split; [apply H, list_elem_of_here |].
      intros c' Hc'. apply H, list_elem_of_further, Hc'.
Qed.

Lemma existsb_row (r : list cell) (seen : list (list cell)) :
  existsb (row_eqb r) seen = true <-> exists r', r' ∈ seen /\ row_eqb r r' = true.
Proof.
  rewrite existsb_exists. setoid_rewrite list_elem_of_In. reflexivity.
Qed.

(** A row is flagged exactly when it equals a row seen before the pass
    or an earlier row of the pass. *)
Lemma duplicated_from_spec (rs : list (list cell)) :
  forall (seen : list (list cell)) (i : nat),
    duplicated_from seen rs !! i = Some true
    <-> exists ri, rs !! i = Some ri /\
        ((exists r, r ∈ seen /\ row_eqb ri r = true) \/
         (exists j rj, (j < i)%nat /\ rs !! j = Some rj /\ row_eqb ri rj = true)).
Proof.
  induction rs as [| r rs IH]; intros seen i; simpl.
  - split; [discriminate | intros (ri & H & _); discriminate].
  - destruct (existsb (row_eqb r) seen) eqn:E.
    + apply existsb_row in E as (r0 & Hr0 & E0).
      destruct i as [| i]; simpl.
      * split; [| reflexivity]. intros _. exists r. split; [reflexivity |].
        left. eauto.
      * rewrite IH. split.
        -- intros (ri & Hi & [H | (j & rj & Hj & Hrj & Hij)]); exists ri;
             (split; [exact Hi |]); [left; exact H |].
           right. exists (S j), rj. split; [lia | auto].
        -- intros (ri & Hi & [H | (j & rj & Hj & Hrj & Hij)]); exists ri;
             (split; [exact Hi |]); [left; exact H |].
           destruct j as [| j]; simpl in Hrj.
           ++ injection Hrj as <-. left. exists r0. split; [exact Hr0 |].
              eapply row_eqb_trans; eassumption.
           ++ right. exists j, rj. split; [lia | auto].
    + assert (Hno : forall r', r' ∈ seen -> row_eqb r r' = true -> False).
      { intros r' Hr' Hrr'.
        assert (existsb (row_eqb r) seen = true) by (apply existsb_row; eauto).
        congruence. }
      destruct i as [| i]; simpl.
      * split; [discriminate |].
        intros (ri & [= <-] & [(r' & Hr' & Hrr') | (j & rj & Hj & _)]);
          [exfalso; eauto | lia].
      * rewrite IH. split.
        -- intros (ri & Hi & [(r' & Hr' & Hrr') | (j & rj & Hj & Hrj & Hij)]);
             exists ri; (split; [exact Hi |]).
           ++ apply elem_of_cons in Hr' as [-> | Hr'].
              ** right. exists 0%nat, r. split; [lia | auto].
              ** left. eauto.
           ++ right. exists (S j), rj. split; [lia | auto].
        -- intros (ri & Hi & [(r' & Hr' & Hrr') | (j & rj & Hj & Hrj & Hij)]);
             exists ri; (split; [exact Hi |]).
           ++ left. exists r'. split; [apply list_elem_of_further, Hr' | exact Hrr'].
           ++ destruct j as [| j]; simpl in Hrj.
              ** injection Hrj as <-. left. exists r.
                 split; [apply list_elem_of_here | exact Hij].
              ** right. exists j, rj. split; [lia | auto].
Qed.

Lemma duplicated_from_length (rs seen : list (list cell)) :
  length (duplicated_from seen rs) = length rs.
Proof.
  revert seen. induction rs as [| r rs IH]; intros seen; simpl; [reflexivity |].
  destruct (existsb _ _); simpl; rewrite IH; reflexivity.
Qed.

Lemma rows_lookup (df : DataFrame) (i : nat) (r : list cell) :
  rows df !! i = Some r <-> (i < nrows df)%nat /\ r = row df i.
Proof.
  unfold rows. rewrite list_lookup_fmap. split.
  - destruct (seq 0 (nrows df) !! i) as [k |] eqn:E; [| discriminate].
    apply lookup_seq in E as [-> ?]. simpl. intros [= <-]. auto.
  - intros [Hi ->]. rewrite lookup_seq_lt by assumption. reflexivity.
Qed.

(** The flags of [duplicated()] on a frame that has rows and columns. *)
Lemma duplicated_spec (df : DataFrame) (i : nat) :
  df_empty df = false ->
  duplicated df !! i = Some true
  <-> (i < nrows df)%nat /\ exists j, (j < i)%nat /\ same_row df j i.
Proof.
  intros He. unfold duplicated. rewrite He, duplicated_from_spec. split.
  - intros (ri & Hi & [(r & Hr & _) | (j & rj & Hj & Hrj & E)]).
    + inversion Hr.
    + apply rows_lookup in Hi as [Hi ->]. apply rows_lookup in Hrj as [_ ->].
      split; [exact Hi |]. exists j. split; [exact Hj |].
      apply row_eqb_same, row_eqb_sym, E.
  - intros (Hi & j & Hj & E). exists (row df i).
    split; [apply rows_lookup; auto |].
    right. exists j, (row df j). split; [exact Hj |].
    split; [apply rows_lookup; split; [lia | reflexivity] |].
    apply row_eqb_sym, row_eqb_same, E.
Qed.

Lemma to_dict_columns {V} (g : column -> V) (cs : list column) :
  to_dict (map (fun c => (label c, g c)) cs)
  = foldl (fun m c => <[label c := g c]> m) ∅ cs.
Proof.
  unfold to_dict. generalize (∅ : gmap string V).
  induction cs as [| c cs IH]; intros m; simpl; [reflexivity | apply IH].
Qed.

Lemma mask_sum_map {A} (f : A -> bool) (l : list A) :
  mask_sum (map f l) = length (List.filter f l).
Proof.
  unfold mask_sum. induction l as [| x l IH]; simpl; [reflexivity |].
  destruct (f x); simpl; rewrite IH; reflexivity.
Qed.

Lemma mask_sum_none (l : list bool) :
  (forall i, l !! i <> Some true) -> mask_sum l = 0%nat.
Proof.
  unfold mask_sum. induction l as [| b l IH]; intros H; [reflexivity |].
  destruct b; [exfalso; apply (H 0%nat); reflexivity |].
  simpl. apply IH. intros i. apply (H (S i)).
Qed.

Lemma filter_is_na_empty (s : series) :
  length (cells s) = 0%nat -> length (List.filter is_na (cells s)) = 0%nat.
Proof. destruct (cells s); [reflexivity | discriminate]. Qed.

Section BasicInfo.

Variable memory_usage_sum : DataFrame -> Z.

(** C7: [basic_info] returns for every table; the missing-values
    mapping gives for each column the number of its missing cells;
    [duplicate_rows] is the number of rows that have an earlier row
    with identical values in every column, hence 0 when no row
    repeats; on a table without rows or without columns the counts
    are zero. *)
Theorem basic_info_spec (df : DataFrame) :
  wf df ->
  exists b : BasicInfo.t,
    basic_info memory_usage_sum df = Ok b /\
    BasicInfo.shape b = (nrows df, length (columns df)) /\
    BasicInfo.columns b = labels df /\
    (forall c, c ∈ columns df ->
       BasicInfo.missing_values b !! label c
       = Some (Z.of_nat (length (List.filter is_na (cells (data c)))))) /\
    (forall k, k ∉ labels df -> BasicInfo.missing_values b !! k = None) /\
    (columns df <> [] ->
     exists flags : list bool,
       length flags = nrows df /\
       (forall i, flags !! i = Some true
          <-> (i < nrows df)%nat /\ exists j, (j < i)%nat /\ same_row df j i) /\
       BasicInfo.duplicate_rows b = Z.of_nat (mask_sum flags)) /\
    ((forall i j, (i < j < nrows df)%nat -> ~ same_row df i j) ->
     BasicInfo.duplicate_rows b = 0) /\
    (nrows df = 0%nat \/ columns df = [] ->
     BasicInfo.duplicate_rows b = 0 /\
     forall k v, BasicInfo.missing_values b !! k = Some v -> v = 0).
Proof.
  intros [Hnd Hlen]. eexists. split; [reflexivity |]. simpl.
  split; [reflexivity |]. split; [reflexivity |].
  unfold isnull_sum.
  rewrite (to_dict_columns
    (fun c => Z.of_nat (mask_sum (map is_na (cells (data c)))))).
  split; [| split; [| split; [| split]]].
  - intros c Hc.
    rewrite (foldl_insert_lookup
      (fun c => Z.of_nat (mask_sum (map is_na (cells (data c)))))) by assumption.
    rewrite mask_sum_map. reflexivity.
  - intros k Hk. rewrite foldl_insert_notin by exact Hk. apply lookup_empty.
  - intros Hcols. exists (duplicated df). split; [| split; [| reflexivity]].
    + unfold duplicated, df_empty.
      destruct (nrows df) as [| n] eqn:En; [reflexivity |].
      destruct (columns df) eqn:Ec; [congruence |]. simpl.
      rewrite duplicated_from_length. unfold rows.
      rewrite length_map, length_seq. exact En.
    + intros i. destruct (df_empty df) eqn:He.
      * unfold duplicated. rewrite He. unfold df_empty in He.
        apply orb_true_iff in He as [He | He].
        -- apply Nat.eqb_eq in He. split; [discriminate | lia].
        -- apply Nat.eqb_eq in He. destruct (columns df); [congruence | discriminate].
      * apply duplicated_spec, He.
  - intros Hno. f_equal. change 0 with (Z.of_nat 0). f_equal.
    apply mask_sum_none. intros i Hi.
    destruct (df_empty df) eqn:He.
    + unfold duplicated in Hi. rewrite He in Hi. discriminate.
    + apply duplicated_spec in Hi as (Hi & j & Hj & Hs); [| exact He].
      apply (Hno j i); [lia | exact Hs].
  - intros He.
    assert (Hemp : df_empty df = true).
    { unfold df_empty. destruct He as [-> | ->]; [reflexivity |].
      apply orb_true_r. }
    split.
    + unfold duplicated. rewrite Hemp. reflexivity.
    + intros k v Hk.
      destruct (decide (k ∈ labels df)) as [Hin | Hnin].
      * apply list_elem_of_fmap in Hin as (c & -> & Hc).
        rewrite (foldl_insert_lookup
          (fun c => Z.of_nat (mask_sum (map is_na (cells (data c))))))
          in Hk by assumption.
        injection Hk as <-. rewrite mask_sum_map.
        destruct He as [He | He].
        -- rewrite Forall_forall in Hlen. specialize (Hlen c Hc).
           rewrite He in Hlen. rewrite filter_is_na_empty by exact Hlen.
           reflexivity.
        -- rewrite He in Hc. inversion Hc.
      * rewrite foldl_insert_notin in Hk by exact Hnin.
        rewrite lookup_empty in Hk. discriminate.
Qed.

End BasicInfo.

Lemma basic_info_spec_witness :
  exists b : BasicInfo.t,
    basic_info (fun _ => 0) sales = Ok b /\
    BasicInfo.missing_values b !! "region"%string = Some 1 /\
    BasicInfo.duplicate_rows b = 0.
Proof.
  destruct (basic_info_spec (fun _ => 0) sales) as (b & Hb & _ & _ & Hm & _ & _ & Hno & _).
  - solve_wf.
  - exists b. split; [exact Hb |]. split.
    + apply (Hm (Column "region" (Object [Some "north"; None; Some "north"]%string))).
      apply list_elem_of_further, list_elem_of_further, list_elem_of_here.
    + apply Hno. intros i j Hij Hs.
      specialize (Hs (Column "units" (Float64 [Some 1; Some 2; Some 4]%Q))
                     (list_elem_of_here _ _)).
      simpl in Hij.
      destruct i as [| [| [| i]]]; destruct j as [| [| [| j]]];
        try lia; vm_compute in Hs; discriminate.
Defined.

(** ** The analyzer object *)

Lemma df_copy_eq (d : DataFrame) : df_copy d = d.
Proof.
  destruct d as [n cs]. unfold df_copy. simpl. f_equal.
  induction cs as [| [l s] cs IH]; simpl; [reflexivity |].
  rewrite IH. reflexivity.
Qed.

Section Object.

Variable memory_usage_sum : DataFrame -> Z.

(** What a method returns for the frame [d] held in [self.df]. *)
Definition run_method (d : DataFrame) (m : method) : result output :=
  match m with
  | m_basic_info => out_basic_info <$> basic_info memory_usage_sum d
  | m_statistical_summary => out_statistical_summary <$> statistical_summary d
  | m_detect_patterns => out_detect_patterns <$> detect_patterns d
  end.

Lemma run_method_ok (d : DataFrame) (m : method) :
  wf d -> exists o, run_method d m = Ok o.
Proof.
  intros Hwf. destruct m; simpl.
  - eexists. reflexivity.
  - rewrite statistical_summary_closed by exact Hwf. eexists. reflexivity.
  - rewrite detect_patterns_closed by exact Hwf. eexists. reflexivity.
Qed.

Lemma call_run (self : DataAnalyzer.t) (m : method)
    (h : gmap positive DataFrame) (d : DataFrame) (o : output) :
  h !! DataAnalyzer.df self = Some d -> run_method d m = Ok o ->
  call memory_usage_sum self m h = Ok (o, h).
Proof.
  intros Hd Ho. unfold call, bindM, load. unfold loc in *. rewrite Hd.
  destruct m; unfold run_method in Ho; unfold lift.
  - unfold basic_info in *. simpl in *. congruence.
  - destruct (statistical_summary d); simpl in *; congruence.
  - destruct (detect_patterns d); simpl in *; congruence.
Qed.

(** A sequence of calls leaves the store as it was, and its outputs
    are determined by the frame in [self.df]. *)
Lemma calls_run (self : DataAnalyzer.t) (ms : list method)
    (h : gmap positive DataFrame) (d : DataFrame) :
  h !! DataAnalyzer.df self = Some d -> wf d ->
  exists outs,
    mapM (run_method d) ms = Ok outs /\
    calls memory_usage_sum self ms h = Ok (outs, h).
Proof.
  intros Hd Hwf. induction ms as [| m ms (outs & E & IH)]; simpl.
  - exists []. split; reflexivity.
  - destruct (run_method_ok d m Hwf) as [o Ho].
    exists (o :: outs). rewrite Ho. simpl. rewrite E. simpl.
    split; [reflexivity |].
    unfold bindM at 1. rewrite (call_run self m h d o Hd Ho).
    unfold bindM at 1. rewrite IH. reflexivity.
Qed.

(** C8: two calls of [detect_patterns] in a row on one analyzer return
    the same result, and the store after them is the store before. *)
Theorem detect_patterns_twice (self : DataAnalyzer.t)
    (h : gmap positive DataFrame) (d : DataFrame) :
  h !! DataAnalyzer.df self = Some d -> wf d ->
  exists p : Patterns.t,
    calls memory_usage_sum self [m_detect_patterns; m_detect_patterns] h
    = Ok ([out_detect_patterns p; out_detect_patterns p], h).
Proof.
  intros Hd Hwf.
  destruct (calls_run self [m_detect_patterns; m_detect_patterns] h d Hd Hwf)
    as (outs & E & Hc).
  simpl in E. rewrite detect_patterns_closed in E by exact Hwf. simpl in E.
  injection E as <-. eexists. exact Hc.
Qed.

(** C9: the analyzer built from the table at [src] holds a copy at a
    fresh place of the store; the table at [src] and every other
    object of the store is as before after construction and after any
    sequence of calls; and the outputs of the calls are the same
    whatever the caller stores at [src] after construction. *)
Theorem analyzer_isolation (src : loc) (t : DataFrame) (ms : list method)
    (h : gmap positive DataFrame) :
  h !! src = Some t -> wf t ->
  exists (self : DataAnalyzer.t) (h1 : gmap positive DataFrame)
         (outs : list output),
    __init__ src h = Ok (self, h1) /\
    DataAnalyzer.df self <> src /\
    h !! DataAnalyzer.df self = None /\
    h1 !! DataAnalyzer.df self = Some t /\
    (forall l, l <> DataAnalyzer.df self -> h1 !! l = h !! l) /\
    calls memory_usage_sum self ms h1 = Ok (outs, h1) /\
    forall t' : DataFrame,
      calls memory_usage_sum self ms (<[src := t']> h1)
      = Ok (outs, <[src := t']> h1).
Proof.
  intros Hsrc Hwf. unfold __init__, bindM, load, alloc, lift.
  unfold loc in *. rewrite Hsrc. rewrite df_copy_eq.
  set (l := fresh (dom h)).
  assert (Hfresh : h !! l = None).
  { apply not_elem_of_dom. apply is_fresh. }
  assert (Hne : l <> src) by (intros ->; congruence).
  assert (Hl : <[l := t]> h !! l = Some t) by apply lookup_insert_eq.
  destruct (calls_run (DataAnalyzer.mk l ∅) ms (<[l := t]> h) t Hl Hwf)
    as (outs & E & Hc).
  exists (DataAnalyzer.mk l ∅), (<[l := t]> h), outs. simpl.
  split; [reflexivity |]. split; [exact Hne |]. split; [exact Hfresh |].
  split; [exact Hl |].
  split; [intros l' Hl'; apply lookup_insert_ne; congruence |].
  split; [exact Hc |].
  intros t'.
  assert (Hl' : <[src := t']> (<[l := t]> h) !! l = Some t).
  { rewrite lookup_insert_ne by congruence. exact Hl. }
  destruct (calls_run (DataAnalyzer.mk l ∅) ms _ t Hl' Hwf) as (outs' & E' & Hc').
  rewrite E in E'. injection E' as <-. exact Hc'.
Qed.

End Object.

Lemma detect_patterns_twice_witness :
  exists p : Patterns.t,
    calls (fun _ => 0) (DataAnalyzer.mk 1%positive ∅)
          [m_detect_patterns; m_detect_patterns] {[ 1%positive := sales ]}
    = Ok ([out_detect_patterns p; out_detect_patterns p], {[ 1%positive := sales ]}).
Proof.
  apply (detect_patterns_twice (fun _ => 0) (DataAnalyzer.mk 1%positive ∅)
           {[ 1%positive := sales ]} sales).
  - apply lookup_singleton_eq.
  - solve_wf.
Defined.

Lemma analyzer_isolation_witness :
  exists (self : DataAnalyzer.t) (h1 : gmap positive DataFrame) (outs : list output),
    __init__ 1%positive {[ 1%positive := sales ]} = Ok (self, h1) /\
    DataAnalyzer.df self <> 1%positive /\
    calls (fun _ => 0) self [m_basic_info; m_detect_patterns] h1 = Ok (outs, h1) /\
    calls (fun _ => 0) self [m_basic_info; m_detect_patterns] (<[1%positive := blanks]> h1)
    = Ok (outs, <[1%positive := blanks]> h1).
Proof.
  destruct (analyzer_isolation (fun _ => 0) 1%positive sales
              [m_basic_info; m_detect_patterns] {[ 1%positive := sales ]})
    as (self & h1 & outs & Hi & Hne & _ & _ & _ & Hc & Hm).
  - apply lookup_singleton_eq.
  - solve_wf.
  - exists self, h1, outs. split; [exact Hi |]. split; [exact Hne |].
    split; [exact Hc | apply Hm].
Defined.

(** * Further properties of the analysis *)

(** ** How many values can be anomalies *)

Lemma Qsum_filter_le {A} (g : A -> Q) (P : A -> Prop)
    `{forall x, Decision (P x)} (l : list A) :
  (forall x, 0 <= g x)%Q ->
  (Qsum (map g (filter P l)) <= Qsum (map g l))%Q.
Proof.
  intros Hg. induction l as [| x l IH]; [apply Qle_refl |].
  rewrite filter_cons. specialize (Hg x).
  destruct (decide (P x)).
  - change (g x + Qsum (map g (filter P l)) <= g x + Qsum (map g l))%Q. lra.
  - change (Qsum (map g (filter P l)) <= g x + Qsum (map g l))%Q. lra.
Qed.

Lemma Qsum_above {A} (g : A -> Q) (c : Q) (l : list A) :
  Forall (fun x => c < g x)%Q l ->
  (inject_Z (Z.of_nat (length l)) * c <= Qsum (map g l))%Q /\
  (l <> [] -> (inject_Z (Z.of_nat (length l)) * c < Qsum (map g l))%Q).
Proof.
  induction 1 as [| x l Hx _ [IH _]].
  - split; [| congruence]. change (0 * c <= 0)%Q. lra.
  - assert (E : (inject_Z (Z.of_nat (length (x :: l)))
                 == inject_Z (Z.of_nat (length l)) + 1)%Q).
    { simpl length. rewrite Nat2Z.inj_succ, <- Z.add_1_r, inject_Z_plus.
      reflexivity. }
    rewrite E.
    change (Qsum (map g (x :: l))) with (g x + Qsum (map g l))%Q.
    split; [| intros _]; lra.
Qed.

(** Chebyshev's bound for the threshold 3: fewer than one value in nine
    lies more than three population deviations from the mean. *)
Lemma zscore_count_bound (vs : list Q) :
  vs <> [] -> (9 * zscore_count 0 vs < length vs)%nat.
Proof.
  intros Hne. unfold zscore_count.
  remember (filter (beyond_3_sigma 0 vs) vs) as fl eqn:Efl.
  destruct (decide (fl = [])) as [E | Hfl].
  - rewrite E. simpl. destruct vs; [congruence | simpl; lia].
  - pose proof (Qlen_pos vs Hne) as Hn. unfold Qlen in Hn.
    set (v := (dev_sum 2 vs / inject_Z (Z.of_nat (length vs - 0)))%Q).
    set (g := fun x : Q => ((x - avg vs) * (x - avg vs))%Q).
    assert (Hsub : forall x, x ∈ fl -> x ∈ vs /\ (9 * v < g x)%Q).
    { intros x Hx. rewrite Efl in Hx.
      apply list_elem_of_filter in Hx as [Hx Hin]. split; assumption. }
    assert (Hall : Forall (fun x => 9 * v < g x)%Q fl).
    { rewrite Forall_forall. intros x Hx. apply Hsub, Hx. }
    destruct (Qsum_above g (9 * v) fl Hall) as [_ Hlt].
    specialize (Hlt Hfl).
    pose proof (Qsum_filter_le g (beyond_3_sigma 0 vs) vs
                  (fun x => Qsq_nonneg (x - avg vs))) as Hle.
    rewrite <- Efl in Hle.
    assert (Ed : (dev_sum 2 vs == v * inject_Z (Z.of_nat (length vs)))%Q).
    { unfold v. rewrite Nat.sub_0_r. field. lra. }
    assert (Es : (Qsum (map g vs) == v * inject_Z (Z.of_nat (length vs)))%Q).
    { rewrite <- Ed. reflexivity. }
    assert (Hv0 : (0 <= v)%Q).
    { pose proof (dev_sum_nonneg vs) as Hd.
      unfold v. rewrite Nat.sub_0_r. apply Qle_shift_div_l; lra. }
    assert (Hv : (0 < v)%Q).
    { destruct (Qlt_le_dec 0 v) as [| Hle0]; [assumption | exfalso].
      assert (Ev : (v == 0)%Q) by lra.
      assert (Ed0 : (dev_sum 2 vs == 0)%Q) by (rewrite Ed, Ev; ring).
      destruct fl as [| x fl']; [congruence |].
      destruct (Hsub x (list_elem_of_here _ _)) as [Hin Hx].
      pose proof (dev_sum_zero vs x Ed0 Hin) as Ex.
      unfold g in Hx. rewrite Ex, Ev in Hx. lra. }
    assert (Hq : (inject_Z (Z.of_nat (9 * length fl))
                  < inject_Z (Z.of_nat (length vs)))%Q).
    { rewrite Nat2Z.inj_mul, inject_Z_mult.
      change (inject_Z (Z.of_nat 9)) with 9%Q. nra. }
    rewrite <- Zlt_Qlt in Hq. lia.
Qed.



(** ** Columns without spread *)

Lemma pairwise_complete_fst (P : Q -> Prop) (xs ys : list (option Q)) :
  Forall P (dropna xs) -> Forall P (pairwise_complete xs ys).*1.
Proof.
  revert ys. induction xs as [| x xs IH]; intros ys H; [constructor |].
  destruct x as [x |]; destruct ys as [| [y |] ys]; simpl;
    try constructor; try (apply IH).
  - inversion H; assumption.
  - inversion H; assumption.
  - inversion H; assumption.
  - exact H.
  - exact H.
Qed.

Lemma pairwise_complete_snd (P : Q -> Prop) (xs ys : list (option Q)) :
  Forall P (dropna ys) -> Forall P (pairwise_complete xs ys).*2.
Proof.
  revert ys. induction xs as [| x xs IH]; intros ys H; [constructor |].
  destruct x as [x |]; destruct ys as [| [y |] ys]; simpl;
    try constructor; try (apply IH).
  - inversion H; assumption.
  - inversion H; assumption.
  - exact H.
  - inversion H; assumption.
  - exact H.
Qed.

(** The coefficient with a column whose values are all equal is NaN. *)
Lemma pearson_const (c0 : Q) (xs ys : list (option Q)) :
  Forall (Qeq c0) (dropna xs) \/ Forall (Qeq c0) (dropna ys) ->
  pearson xs ys = NaN.
Proof.
  intros H. unfold pearson.
  destruct (length (pairwise_complete xs ys) <? 1)%nat eqn:El; [reflexivity |].
  apply Nat.ltb_ge in El.
  assert (Hne : pairwise_complete xs ys <> [])
    by (destruct (pairwise_complete xs ys); [simpl in El; lia | discriminate]).
  assert (E : (dev_sum 2 (pairwise_complete xs ys).*1
               * dev_sum 2 (pairwise_complete xs ys).*2 == 0)%Q).
  { destruct H as [H | H].
    - rewrite (dev_sum_const c0 (pairwise_complete xs ys).*1); [ring | |].
      + intros E. apply fmap_nil_inv in E. contradiction.
      + apply pairwise_complete_fst, H.
    - rewrite (dev_sum_const c0 (pairwise_complete xs ys).*2); [ring | |].
      + intros E. apply fmap_nil_inv in E. contradiction.
      + apply pairwise_complete_snd, H. }
  apply Qeq_eq_bool in E. rewrite E. reflexivity.
Qed.

Lemma zscore_count_const (c0 : Q) (vs : list Q) :
  Forall (Qeq c0) vs -> zscore_count 0 vs = 0%nat.
Proof.
  intros H. destruct vs as [| x vs']; [reflexivity |].
  set (vs := x :: vs') in *.
  assert (Hne : vs <> []) by discriminate.
  pose proof (zscore_count_bound vs Hne) as Hb.
  unfold zscore_count in *.
  destruct (filter (beyond_3_sigma 0 vs) vs) as [| y fl] eqn:E; [reflexivity |].
  exfalso.
  assert (Hy : y ∈ filter (beyond_3_sigma 0 vs) vs)
    by (rewrite E; apply list_elem_of_here).
  apply list_elem_of_filter in Hy as [Hy Hin].
  unfold beyond_3_sigma in Hy.
  rewrite (dev_sum_const c0 vs Hne H) in Hy.
  rewrite (dev_sum_zero vs y (dev_sum_const c0 vs Hne H) Hin) in Hy.
  pose proof (Qlen_pos vs Hne) as Hn. unfold Qlen in Hn.
  rewrite Nat.sub_0_r in Hy.
  assert (E0 : (9 * (0 / inject_Z (Z.of_nat (length vs))) == 0)%Q)
    by (field; lra).
  rewrite E0 in Hy. lra.
Qed.

(** A numeric column whose non-missing values are all equal (or that has
    none) gets no anomaly finding and takes part in no correlation
    finding, on either side. *)
Theorem constant_column_quiet (df : DataFrame) (c : column) (c0 : Q)
    (p : Patterns.t) :
  wf df -> c ∈ columns df -> is_number (data c) = true ->
  Forall (Qeq c0) (values_of c) ->
  detect_patterns df = Ok p ->
  (forall k, Anomaly.mk (label c) k ∉ Patterns.anomalies p) /\
  (forall f, f ∈ Patterns.correlations p ->
     Correlation.var1 f <> label c /\ Correlation.var2 f <> label c).
Proof.
  intros Hwf Hc Hnum Hconst Hp.
  assert (Hc' : c ∈ numeric_columns df) by (apply numeric_columns_spec; auto).
  rewrite detect_patterns_closed in Hp by exact Hwf. injection Hp as <-.
  simpl. split.
  - intros k. rewrite elem_of_anomalies by assumption.
    rewrite column_anomalies_spec, (zscore_count_const c0) by assumption. lia.
  - intros f Hf.
    assert (Hf' : f ∈ omap (finding (numeric_columns df))
                         (pairs (length (numeric_columns df))))
      by (destruct (1 <? _)%nat; [exact Hf | inversion Hf]).
    apply list_elem_of_omap in Hf' as ([i j] & _ & Hij).
    apply finding_spec in Hij as (ci & cj & r & Hi & Hj & Hr & _ & ->). simpl.
    apply list_elem_of_lookup_2 in Hi, Hj.
    pose proof (numeric_columns_NoDup df Hwf) as Hnd.
    split; intros El.
    + rewrite (label_inj _ ci c Hnd Hi Hc' El) in Hr.
      rewrite (pearson_const c0) in Hr by (left; exact Hconst). discriminate.
    + rewrite (label_inj _ cj c Hnd Hj Hc' El) in Hr.
      rewrite (pearson_const c0) in Hr by (right; exact Hconst). discriminate.
Qed.

(** A steady column next to a moving one. *)
Definition steady : DataFrame :=
  {| nrows := 3;
     columns :=
       [Column "level" (Float64 [Some 7; Some 7; Some 7]%Q);
        Column "step" (Int64 [1; 2; 3])] |}.

Lemma constant_column_quiet_witness :
  (forall k, Anomaly.mk "level" k ∉ []) /\
  (forall f, f ∈ [] ->
     Correlation.var1 f <> "level"%string /\ Correlation.var2 f <> "level"%string).
Proof.
  apply (constant_column_quiet steady
           (Column "level" (Float64 [Some 7; Some 7; Some 7]%Q)) 7%Q
           {| Patterns.correlations := [];
              Patterns.trends := [Trend.mk "step" "increasing"];
              Patterns.anomalies := [] |}).
  - solve_wf.
  - apply list_elem_of_here.
  - reflexivity.
  - repeat constructor.
  - vm_compute. reflexivity.
Defined.

(** ** Which columns the results mention *)

Lemma omap_labels_sublist {B} (g : column -> option B) (key : B -> string)
    (cs : list column) :
  (forall c b, g c = Some b -> key b = label c) ->
  map key (omap g cs) `sublist_of` map label cs.
Proof.
  intros Hg. induction cs as [| c cs IH]; [constructor |].
  cbn. destruct (g c) as [b |] eqn:E.
  - simpl. rewrite (Hg c b E). apply sublist_skip, IH.
  - apply sublist_cons, IH.
Qed.

Lemma not_numeric_label (df : DataFrame) (c : column) :
  wf df -> c ∈ columns df -> is_number (data c) = false ->
  label c ∉ map label (numeric_columns df).
Proof.
  intros Hwf Hc Hn Hin.
  apply list_elem_of_fmap in Hin as (c' & E & Hc').
  apply numeric_columns_spec in Hc' as [Hc' Hn'].
  destruct Hwf as [Hnd _].
  rewrite (label_inj _ c c' Hnd Hc Hc' E) in Hn. congruence.
Qed.

(** Trend and anomaly findings follow the numeric columns: their column
    names form a sub-sequence of the numeric column names, so they come
    in column order, at most one of each kind per column, and a text or
    bool column is never reported. *)
Theorem findings_follow_columns (df : DataFrame) (p : Patterns.t) :
  wf df -> detect_patterns df = Ok p ->
  map Trend.column (Patterns.trends p)
    `sublist_of` labels (select_dtypes is_number df) /\
  map Anomaly.column (Patterns.anomalies p)
    `sublist_of` labels (select_dtypes is_number df) /\
  NoDup (map Trend.column (Patterns.trends p)) /\
  NoDup (map Anomaly.column (Patterns.anomalies p)) /\
  (forall c, c ∈ columns df -> is_number (data c) = false ->
     (forall t, Trend.mk (label c) t ∉ Patterns.trends p) /\
     (forall k, Anomaly.mk (label c) k ∉ Patterns.anomalies p)).
Proof.
  intros Hwf Hp.
  rewrite detect_patterns_closed in Hp by exact Hwf. injection Hp as <-.
  simpl. unfold labels. fold (numeric_columns df).
  assert (Ht : map Trend.column (omap trend_finding (numeric_columns df))
               `sublist_of` map label (numeric_columns df)).
  { apply omap_labels_sublist. intros c b. unfold trend_finding.
    destruct (column_trend _); [intros [= <-]; reflexivity | discriminate]. }
  assert (Ha : map Anomaly.column (omap anomaly_finding (numeric_columns df))
               `sublist_of` map label (numeric_columns df)).
  { apply omap_labels_sublist. intros c b. unfold anomaly_finding.
    destruct (column_anomalies _); [intros [= <-]; reflexivity | discriminate]. }
  pose proof (numeric_columns_NoDup df Hwf) as Hnd.
  split; [exact Ht |]. split; [exact Ha |].
  split; [eapply sublist_NoDup; eassumption |].
  split; [eapply sublist_NoDup; eassumption |].
  intros c Hc Hn. pose proof (not_numeric_label df c Hwf Hc Hn) as Hnot.
  split.
  - intros t Hin. apply Hnot. eapply elem_of_sublist; [| exact Ht].
    apply list_elem_of_fmap. exists (Trend.mk (label c) t). auto.
  - intros k Hin. apply Hnot. eapply elem_of_sublist; [| exact Ha].
    apply list_elem_of_fmap. exists (Anomaly.mk (label c) k). auto.
Qed.

Lemma findings_follow_columns_witness :
  map Trend.column [Trend.mk "units" "increasing"; Trend.mk "price" "decreasing"]
    `sublist_of` labels (select_dtypes is_number sales).
Proof.
  apply (findings_follow_columns sales
           {| Patterns.correlations :=
                match detect_patterns sales with
                | Ok p => Patterns.correlations p
                | Raise _ => []
                end;
              Patterns.trends :=
                [Trend.mk "units" "increasing"; Trend.mk "price" "decreasing"];
              Patterns.anomalies := [] |}).
  - solve_wf.
  - vm_compute. reflexivity.
Defined.

(** [statistical_summary] has a numeric entry exactly for the columns of
    a number dtype and a categorical entry exactly for the object and
    category columns; a bool column is summarised in neither part. *)
Theorem statistical_summary_keys (df : DataFrame) (s : StatsSummary.t) :
  wf df -> statistical_summary df = Ok s ->
  (forall k, is_Some (StatsSummary.numerical s !! k)
     <-> exists c, c ∈ columns df /\ label c = k /\ is_number (data c) = true) /\
  (forall k, is_Some (StatsSummary.categorical s !! k)
     <-> exists c, c ∈ columns df /\ label c = k /\
                   is_object_or_category (data c) = true) /\
  (forall c xs, c ∈ columns df -> data c = Bool xs ->
     StatsSummary.numerical s !! label c = None /\
     StatsSummary.categorical s !! label c = None).
Proof.
  intros Hwf Hs.
  rewrite statistical_summary_closed in Hs by exact Hwf. injection Hs as <-.
  simpl.
  assert (Hnum : forall k,
    is_Some (foldl (fun m c => <[label c := numeric_summary (values_of c)]> m)
                   (∅ : gmap string NumericSummary.t) (numeric_columns df) !! k)
    <-> exists c, c ∈ columns df /\ label c = k /\ is_number (data c) = true).
  { intros k. split.
    - intros Hk. destruct (decide (k ∈ map label (numeric_columns df))) as [Hin | Hnin].
      + apply list_elem_of_fmap in Hin as (c & -> & Hc).
        apply numeric_columns_spec in Hc. exists c. tauto.
      + rewrite foldl_insert_notin in Hk by exact Hnin.
        rewrite lookup_empty in Hk. destruct Hk; discriminate.
    - intros (c & Hc & <- & Hn).
      rewrite (foldl_insert_lookup (fun c => numeric_summary (values_of c))).
      + eauto.
      + apply numeric_columns_NoDup, Hwf.
      + apply numeric_columns_spec. auto. }
  assert (Hcat : forall k,
    is_Some (foldl (fun m c => <[label c := category_summary (texts (data c))]> m)
                   (∅ : gmap string CategoricalSummary.t) (categorical_columns df) !! k)
    <-> exists c, c ∈ columns df /\ label c = k /\
                  is_object_or_category (data c) = true).
  { intros k. split.
    - intros Hk. destruct (decide (k ∈ map label (categorical_columns df))) as [Hin | Hnin].
      + apply list_elem_of_fmap in Hin as (c & -> & Hc).
        apply categorical_columns_spec in Hc. exists c. tauto.
      + rewrite foldl_insert_notin in Hk by exact Hnin.
        rewrite lookup_empty in Hk. destruct Hk; discriminate.
    - intros (c & Hc & <- & Hn).
      rewrite (foldl_insert_lookup (fun c => category_summary (texts (data c)))).
      + eauto.
      + apply categorical_columns_NoDup, Hwf.
      + apply categorical_columns_spec. auto. }
  split; [exact Hnum |]. split; [exact Hcat |].
  intros c xs Hc Hd. destruct Hwf as [Hnd _].
  split; apply eq_None_not_Some; intros Hk.
  - apply Hnum in Hk as (c' & Hc' & E & Hn).
    rewrite (label_inj _ c' c Hnd Hc' Hc E), Hd in Hn. discriminate.
  - apply Hcat in Hk as (c' & Hc' & E & Hn).
    rewrite (label_inj _ c' c Hnd Hc' Hc E), Hd in Hn. discriminate.
Qed.

(** A table with a flag column. *)
Definition flagged : DataFrame :=
  {| nrows := 2;
     columns :=
       [Column "ok" (Bool [true; false]);
        Column "score" (Float64 [Some 1; None]%Q)] |}.

Lemma statistical_summary_keys_witness :
  exists s : StatsSummary.t,
    statistical_summary flagged = Ok s /\
    StatsSummary.numerical s !! "ok"%string = None /\
    StatsSummary.categorical s !! "ok"%string = None /\
    is_Some (StatsSummary.numerical s !! "score"%string).
Proof.
  assert (Hwf : wf flagged) by solve_wf.
  eexists. split; [apply statistical_summary_closed, Hwf |].
  destruct (statistical_summary_keys flagged _ Hwf
              (statistical_summary_closed flagged Hwf)) as (Hn & _ & Hb).
  destruct (Hb (Column "ok" (Bool [true; false])) [true; false]
              (list_elem_of_here _ _) eq_refl) as [H1 H2].
  split; [exact H1 |]. split; [exact H2 |].
  apply Hn. exists (Column "score" (Float64 [Some 1; None]%Q)).
  split; [apply list_elem_of_further, list_elem_of_here | split; reflexivity].
Defined.

(** ** Bounds on the basic information *)

Lemma mask_sum_le (l : list bool) : (mask_sum l <= length l)%nat.
Proof.
  unfold mask_sum. induction l as [| b l IH]; simpl; [lia |].
  destruct b; simpl; lia.
Qed.

Lemma duplicated_le (df : DataFrame) :
  (mask_sum (duplicated df) <= nrows df - 1)%nat.
Proof.
  unfold duplicated. destruct (df_empty df); [unfold mask_sum; simpl; lia |].
  unfold rows. destruct (nrows df) as [| n]; [unfold mask_sum; simpl; lia |].
  change (seq 0 (S n)) with (0%nat :: seq 1 n). simpl.
  pose proof (mask_sum_le (duplicated_from [row df 0] (map (row df) (seq 1 n)))) as H.
  rewrite duplicated_from_length, length_map, length_seq in H.
  unfold mask_sum in *. simpl. lia.
Qed.

Section BasicInfoBounds.

Variable memory_usage_sum : DataFrame -> Z.

(** The first row is never a duplicate, so [duplicate_rows] is at most
    the number of rows minus one; every column has an entry in
    [missing_values] that lies between 0 and the number of rows, and an
    entry in [dtypes] that names its dtype. *)
Theorem basic_info_bounds (df : DataFrame) (b : BasicInfo.t) :
  wf df -> basic_info memory_usage_sum df = Ok b ->
  0 <= BasicInfo.duplicate_rows b <= Z.of_nat (nrows df - 1) /\
  forall c, c ∈ columns df ->
    BasicInfo.dtypes b !! label c = Some (dtype_name (data c)) /\
    exists v, BasicInfo.missing_values b !! label c = Some v /\
              0 <= v <= Z.of_nat (nrows df).
Proof.
  intros [Hnd Hlen] [= <-]. simpl. split.
  - pose proof (duplicated_le df). lia.
  - intros c Hc. split.
    + rewrite (to_dict_columns (fun c => dtype_name (data c))).
      apply (foldl_insert_lookup (fun c => dtype_name (data c))); assumption.
    + unfold isnull_sum.
      rewrite (to_dict_columns
        (fun c => Z.of_nat (mask_sum (map is_na (cells (data c)))))).
      rewrite (foldl_insert_lookup
        (fun c => Z.of_nat (mask_sum (map is_na (cells (data c)))))) by assumption.
      eexists. split; [reflexivity |].
      pose proof (mask_sum_le (map is_na (cells (data c)))) as H.
      rewrite length_map in H.
      rewrite Forall_forall in Hlen. rewrite (Hlen c Hc) in H. lia.
Qed.

End BasicInfoBounds.

Lemma basic_info_bounds_witness :
  exists b : BasicInfo.t,
    basic_info (fun _ => 0) sales = Ok b /\
    0 <= BasicInfo.duplicate_rows b <= 2 /\
    BasicInfo.dtypes b !! "price"%string = Some "int64"%string.
Proof.
  eexists. split; [reflexivity |].
  destruct (basic_info_bounds (fun _ => 0) sales _ sales_wf eq_refl) as [Hd Hc].
  split; [exact Hd |].
  apply (Hc (Column "price" (Int64 [9; 7; 2]))).
  apply list_elem_of_further, list_elem_of_here.
Defined.

(** ** Order of the numeric statistics *)









(** ** Counting the values of a text column *)

(** The number of occurrences of [v] in [l]. *)
Definition occ (v : string) (l : list string) : nat :=
  length (filter (fun x => x = v) l).

(** The count recorded for the key [k]. *)
Definition count_of (k : string) (cs : list (string * nat)) : nat :=
  match List.find (fun kn => String.eqb kn.1 k) cs with
  | Some kn => kn.2
  | None => 0%nat
  end.

Lemma count_of_count_add (k v : string) (cs : list (string * nat)) :
  count_of k (count_add v cs)
  = if decide (k = v) then S (count_of v cs) else count_of k cs.
Proof.
  unfold count_of. induction cs as [| [k0 n0] cs IH]; simpl.
  - destruct (decide (k = v)) as [-> | Hne].
    + rewrite String.eqb_refl. reflexivity.
    + destruct (String.eqb v k) eqn:E; [| reflexivity].
      apply String.eqb_eq in E. congruence.
  - destruct (String.eqb k0 v) eqn:E0; simpl.
    + apply String.eqb_eq in E0. subst k0.
      destruct (decide (k = v)) as [-> | Hne].
      * rewrite String.eqb_refl. reflexivity.
      * destruct (String.eqb v k) eqn:E; [| reflexivity].
        apply String.eqb_eq in E. congruence.
    + destruct (String.eqb k0 k) eqn:E1.
      * apply String.eqb_eq in E1. subst k0.
        destruct (decide (k = v)) as [-> | Hne]; [| reflexivity].
        rewrite String.eqb_refl in E0. discriminate.
      * exact IH.
Qed.

Lemma count_add_keys (v : string) (cs : list (string * nat)) :
  (count_add v cs).*1 = if decide (v ∈ cs.*1) then cs.*1 else cs.*1 ++ [v].
Proof.
  induction cs as [| [k0 n0] cs IH].
  - destruct (decide _) as [H | H]; [inversion H | reflexivity].
  - change (((k0, n0) :: cs).*1) with (k0 :: cs.*1).
    change (count_add v ((k0, n0) :: cs))
      with (if String.eqb k0 v then (k0, S n0) :: cs else (k0, n0) :: count_add v cs).
    destruct (String.eqb k0 v) eqn:E0.
    + apply String.eqb_eq in E0. subst k0.
      change (((v, S n0) :: cs).*1) with (v :: cs.*1). clear IH.
      destruct (decide (v ∈ v :: cs.*1)) as [H | H]; [reflexivity |].
      exfalso. apply H, list_elem_of_here.
    + apply String.eqb_neq in E0.
      change (((k0, n0) :: count_add v cs).*1) with (k0 :: (count_add v cs).*1).
      rewrite IH.
      destruct (decide (v ∈ cs.*1)) as [H | H];
        destruct (decide (v ∈ k0 :: cs.*1)) as [H' | H']; try reflexivity.
      * exfalso. apply H', list_elem_of_further, H.
      * exfalso. apply elem_of_cons in H' as [-> | H']; [congruence | contradiction].
Qed.

Lemma occ_snoc (k v : string) (l : list string) :
  occ k (l ++ [v]) = if decide (k = v) then S (occ k l) else occ k l.
Proof.
  unfold occ. rewrite filter_app, length_app, filter_cons, filter_nil.
  destruct (decide (v = k)) as [-> | H]; destruct (decide (k = _)) as [E | E];
    simpl; try lia; congruence.
Qed.

(** The table of [value_counts()]: distinct keys, the values of the
    column, each with its number of occurrences. *)
Lemma tally_spec (l : list string) :
  NoDup (tally l).*1 /\
  (forall k, k ∈ (tally l).*1 <-> k ∈ l) /\
  (forall k, count_of k (tally l) = occ k l).
Proof.
  unfold tally. induction l as [| v l IH] using rev_ind.
  - simpl. split; [constructor |]. split; [reflexivity | reflexivity].
  - rewrite foldl_app. simpl. destruct IH as (Hnd & Hk & Hc).
    set (cs := foldl (fun cs v => count_add v cs) [] l) in *.
    split; [| split].
    + rewrite count_add_keys. destruct (decide (v ∈ cs.*1)) as [H | H]; [exact Hnd |].
      apply NoDup_app. split; [exact Hnd |]. split.
      * intros x Hx Hx'. apply list_elem_of_singleton in Hx'. subst. contradiction.
      * apply NoDup_singleton.
    + intros k. rewrite count_add_keys, elem_of_app, list_elem_of_singleton.
      destruct (decide (v ∈ cs.*1)) as [H | H].
      * rewrite Hk. split; [tauto |]. intros [H' | ->]; [exact H' | apply Hk, H].
      * rewrite elem_of_app, list_elem_of_singleton, Hk. reflexivity.
    + intros k. rewrite count_of_count_add, occ_snoc, !Hc.
      destruct (decide (k = v)) as [-> | _]; reflexivity.
Qed.

Lemma count_of_elem (k : string) (n : nat) (cs : list (string * nat)) :
  NoDup cs.*1 -> (k, n) ∈ cs -> count_of k cs = n.
Proof.
  unfold count_of. induction cs as [| [k0 n0] cs IH]; simpl; intros Hnd Hin.
  - inversion Hin.
  - apply NoDup_cons in Hnd as [Hn0 Hnd].
    apply elem_of_cons in Hin as [[= -> ->] | Hin].
    + rewrite String.eqb_refl. reflexivity.
    + destruct (String.eqb k0 k) eqn:E; [| apply IH; assumption].
      apply String.eqb_eq in E. subst k0. exfalso. apply Hn0.
      apply list_elem_of_fmap. exists (k, n). auto.
Qed.

Lemma occ_pos (k : string) (l : list string) : k ∈ l <-> (0 < occ k l)%nat.
Proof.
  unfold occ. split.
  - intros H. assert (Hf : k ∈ filter (fun x => x = k) l)
      by (apply list_elem_of_filter; auto).
    destruct (filter _ l); [inversion Hf | simpl; lia].
  - intros H. destruct (filter (fun x => x = k) l) as [| x f] eqn:E; [simpl in H; lia |].
    assert (Hx : x ∈ filter (fun x => x = k) l) by (rewrite E; apply list_elem_of_here).
    apply list_elem_of_filter in Hx as [-> Hx]. exact Hx.
Qed.

Lemma tally_elem (l : list string) (k : string) (n : nat) :
  (k, n) ∈ tally l <-> k ∈ l /\ n = occ k l.
Proof.
  destruct (tally_spec l) as (Hnd & Hk & Hc). split.
  - intros Hin. split.
    + apply Hk, list_elem_of_fmap. exists (k, n). auto.
    + rewrite <- Hc. symmetry. apply count_of_elem; assumption.
  - intros [Hin ->]. apply Hk in Hin.
    apply list_elem_of_fmap in Hin as ([k' n'] & E & Hin). simpl in E. subst k'.
    rewrite <- Hc, (count_of_elem k n' _ Hnd Hin). exact Hin.
Qed.
